(** * GitHub repository traffic: the snapshot reconciliation engine

    A shallow embedding of [process.py] (window expansion, reconciliation,
    point series, per-repository and batch processing) and of
    [verify_2wk_window.py] (the two-week window check), with the properties
    the specification states about them.

    Conventions of the embedding.
    - A crawl record (one JSON line of the raw log) is a [snapshot] record;
      the keys the code indexes with a string ([obj['clones']], [obj['stars']])
      are the constructors of [daily_key] and [point_key].
    - Timestamps are exact rationals ([Q]); the rounding of the float
      arithmetic is not modelled.
    - A calendar date is its day number relative to 1970-01-01; Python's
      [date] only holds years 1 to 9999 and raises outside, which the model
      keeps ([date_of_days]).
    - Local time is UTC plus a fixed offset [tz] in seconds, a parameter of
      every function that reads the local clock's zone.
    - A raised exception is the [Err] case of [result]; the assertion that
      failed is recorded in the [AssertionError]. *)

From Stdlib Require Import ZArith QArith Qround Qminmax Lia Ascii String.
From stdpp Require Import gmap strings list sorting.

Local Open Scope Z_scope.

(** ** Exceptions *)

(** The [assert] statements of the two programs, named after the failure
    each one detects. *)
Inductive assertion : Set :=
  | DuplicateDayError            (* process.py, each_day: ymd not in ymd2pair *)
  | ReconciliationConflictError  (* process.py, get_daily_stats: equal pairs *)
  | MetricAlignmentError         (* process.py, process_repo: dates == dates2 *)
  | AlignmentError               (* process.py, process_repo: point times *)
  | GapNegativeError             (* verify_2wk_window.py: 0 <= gaps[0] *)
  | GapTooLongError.             (* verify_2wk_window.py: gaps[-1] < two_weeks *)

Inductive exception : Set :=
  | AssertionError (a : assertion)
  | ValueError
  | IndexError
  | OverflowError.

Inductive result (A : Type) : Type :=
  | Ok (a : A)
  | Err (e : exception).
Arguments Ok {A} a.
Arguments Err {A} e.

#[global] Instance result_ret : MRet result := fun A a => Ok a.
#[global] Instance result_bind : MBind result := fun A B k r =>
  match r with
  | Ok a => k a
  | Err e => Err e
  end.

Definition assert (b : bool) (a : assertion) : result unit :=
  if b then Ok tt else Err (AssertionError a).

#[global] Instance assertion_eq_dec : EqDecision assertion.
Proof. solve_decision. Defined.
#[global] Instance exception_eq_dec : EqDecision exception.
Proof. solve_decision. Defined.

(** ** The calendar ([datetime.date], [strftime], [strptime], [mktime]) *)

Module Calendar.

(** Day numbers count from 1970-01-01.  The civil date of a day number is
    computed on the 400-year cycle of 146097 days that starts on a
    1 March: [doe] is the day of the cycle, [yoe] its year, [doy] the day
    of the year counted from 1 March. *)
Definition cycle_days : Z := 146097.
Definition cycle_shift : Z := 719468.

Definition civil_of_doe (doe : Z) : Z * Z * Z :=
  let yoe := (doe - doe / 1460 + doe / 36524 - doe / 146096) / 365 in
  let doy := doe - (365 * yoe + yoe / 4 - yoe / 100) in
  let mp := (5 * doy + 2) / 153 in
  let d := doy - (153 * mp + 2) / 5 + 1 in
  let m := if mp <? 10 then mp + 3 else mp - 9 in
  (if m <=? 2 then yoe + 1 else yoe, m, d).

Definition civil_from_days (z : Z) : Z * Z * Z :=
  let era := (z + cycle_shift) / cycle_days in
  let doe := (z + cycle_shift) mod cycle_days in
  let '(y, m, d) := civil_of_doe doe in
  (y + 400 * era, m, d).

Definition days_from_civil (y m d : Z) : Z :=
  let y' := if m <=? 2 then y - 1 else y in
  let era := y' / 400 in
  let yoe := y' mod 400 in
  let doy := (153 * (if m >? 2 then m - 3 else m + 9) + 2) / 5 + d - 1 in
  let doe := yoe * 365 + yoe / 4 - yoe / 100 + doy in
  era * cycle_days + doe - cycle_shift.

Definition is_leap (y : Z) : bool :=
  (y mod 4 =? 0) && (negb (y mod 100 =? 0) || (y mod 400 =? 0)).

Definition days_in_month (y m : Z) : Z :=
  if m =? 2 then (if is_leap y then 29 else 28)
  else if (m =? 4) || (m =? 6) || (m =? 9) || (m =? 11) then 30
  else 31.

(** [date.min] is 0001-01-01 and [date.max] is 9999-12-31. *)
Definition MINDAY : Z := -719162.
Definition MAXDAY : Z := 2932896.

Definition in_range (z : Z) : bool := (MINDAY <=? z) && (z <=? MAXDAY).

(** Building a [date] from a day number: the constructor and the
    arithmetic operators raise when the year leaves 1..9999. *)
Definition date_of_days (z : Z) : result Z :=
  if in_range z then Ok z else Err OverflowError.

(** [d - timedelta(n)] *)
Definition date_sub (d n : Z) : result Z := date_of_days (d - n).

(** [date.fromtimestamp(t)]: the local calendar day of the second
    [floor t]. *)
Definition fromtimestamp (tz : Z) (t : Q) : result Z :=
  date_of_days ((Qfloor t + tz) / 86400).

(** *** [strftime('%Y-%m-%d')]

    The year is printed with four digits, also below 1000, where some C
    libraries leave the padding out. *)

Definition digit (n : Z) : ascii :=
  ascii_of_N (Z.to_N (48 + n mod 10)).

Definition fmt2 (n : Z) (rest : string) : string :=
  String (digit (n / 10)) (String (digit n) rest).

Definition fmt4 (n : Z) (rest : string) : string :=
  String (digit (n / 1000)) (String (digit (n / 100)) (fmt2 n rest)).

Definition format_ymd (ymd : Z * Z * Z) : string :=
  let '(y, m, d) := ymd in
  fmt4 y (String "-" (fmt2 m (String "-" (fmt2 d EmptyString)))).

Definition strftime (z : Z) : string := format_ymd (civil_from_days z).

(** *** [datetime.strptime(s, '%Y-%m-%d')]

    The year is four digits; the month is [1[0-2]|0[1-9]|[1-9]] and the
    day [3[01]|[12]\d|0[1-9]|[1-9]| [1-9]], as in the regular expression
    [strptime] compiles the format to; then the date must exist. *)

Definition digit_val (c : ascii) : option Z :=
  let n := Z.of_N (N_of_ascii c) in
  if (48 <=? n) && (n <=? 57) then Some (n - 48) else None.

Definition field1 (c : ascii) : option Z :=
  match digit_val c with
  | Some v => if 1 <=? v then Some v else None
  | None => None
  end.

Definition field2 (c1 c2 : ascii) (hi : Z) : option Z :=
  match digit_val c1, digit_val c2 with
  | Some a, Some b =>
      let v := 10 * a + b in
      if (1 <=? v) && (v <=? hi) then Some v else None
  | _, _ => None
  end.

Definition parse_day (s : string) : option Z :=
  match s with
  | String c EmptyString => field1 c
  | String c1 (String c2 EmptyString) =>
      if Ascii.eqb c1 " " then field1 c2 else field2 c1 c2 31
  | _ => None
  end.

Definition parse_month_day (s : string) : option (Z * Z) :=
  match s with
  | String c (String "-" rest) =>
      match field1 c, parse_day rest with
      | Some m, Some d => Some (m, d)
      | _, _ => None
      end
  | String c1 (String c2 (String "-" rest)) =>
      match field2 c1 c2 12, parse_day rest with
      | Some m, Some d => Some (m, d)
      | _, _ => None
      end
  | _ => None
  end.

Definition parse_year (c1 c2 c3 c4 : ascii) : option Z :=
  match digit_val c1, digit_val c2, digit_val c3, digit_val c4 with
  | Some a, Some b, Some c, Some d => Some (1000 * a + 100 * b + 10 * c + d)
  | _, _, _, _ => None
  end.

Definition strptime (s : string) : result Z :=
  match s with
  | String c1 (String c2 (String c3 (String c4 (String "-" rest)))) =>
      match parse_year c1 c2 c3 c4, parse_month_day rest with
      | Some y, Some (m, d) =>
          if (1 <=? y) && (d <=? days_in_month y m)
          then Ok (days_from_civil y m d)
          else Err ValueError
      | _, _ => Err ValueError
      end
  | _ => Err ValueError
  end.

(** [mktime(d.timetuple())]: the timestamp of local midnight of day [z]. *)
Definition mktime (tz : Z) (z : Z) : Q := inject_Z (86400 * z - tz).

(** *** The order of dates

    [ymd_key] orders civil dates as the calendar does (the month is at
    most 12 and the day at most 31).  [cycle_day_ok] checks, for one day
    of the 400-year cycle, the ranges of the civil date, that the next
    day has a larger key, and that [days_from_civil] inverts
    [civil_of_doe]. *)
Definition ymd_key (ymd : Z * Z * Z) : Z :=
  let '(y, m, d) := ymd in 512 * y + 32 * m + d.

Definition cycle_day_ok (doe : Z) : bool :=
  let '(y, m, d) := civil_of_doe doe in
  let yoe := if m <=? 2 then y - 1 else y in
  (0 <=? yoe) && (yoe <? 400) && (1 <=? m) && (m <=? 12)
  && (1 <=? d) && (d <=? days_in_month y m)
  && (ymd_key (y, m, d) <? ymd_key (civil_of_doe (doe + 1)))
  && (days_from_civil y m d + cycle_shift =? doe).

(** [f 0 && f 1 && ... && f (n - 1)], by binary iteration. *)
Definition all_below (f : Z -> bool) (n : positive) : bool :=
  snd (Pos.iter (fun '(i, b) => (i + 1, b && f i)) (0, true) n).

(** Lexicographic combination of two comparisons. *)
Definition lexc (c1 c2 : comparison) : comparison :=
  match c1 with
  | Eq => c2
  | _ => c1
  end.

End Calendar.

Import Calendar.

(** ** The raw log: one [snapshot] per repository per poll *)

(** One entry of a [daily] list: [{'date': .., 'count': .., 'uniques': ..}]. *)
Record day : Set := Day {
  date : string;
  count : Z;
  uniques : Z
}.

(** The value of [obj['clones']] and of [obj['views']]. *)
Record traffic : Set := Traffic {
  total_count : Z;
  total_uniques : Z;
  daily : list day
}.

Record snapshot : Set := Snapshot {
  time : Q;
  repo : string;
  stars : Z;
  watchers : Z;
  forks : Z;
  clones : traffic;
  views : traffic
}.

(** The keys [get_daily_stats] and [get_point_stats] are called with. *)
Inductive daily_key : Set := Clones | Views.
Inductive point_key : Set := Forks | Stars | Watchers.

Definition get_traffic (key : daily_key) (obj : snapshot) : traffic :=
  match key with
  | Clones => clones obj
  | Views => views obj
  end.

Definition get_point (key : point_key) (obj : snapshot) : Z :=
  match key with
  | Forks => forks obj
  | Stars => stars obj
  | Watchers => watchers obj
  end.

(** A yielded [(ymd, count, unique)] tuple. *)
Definition observation : Set := string * Z * Z.

(** ** Sorting ([sorted] on strings, [list.sort] on numbers) *)

Definition str_le (a b : string) : Prop := String.leb a b = true.

#[global] Instance str_le_dec (a b : string) : Decision (str_le a b).
Proof. unfold str_le. apply _. Defined.

(** [sorted(d)] for a dict [d] with string keys: its keys in increasing
    order. *)
Definition sorted_keys {V : Type} (d : gmap string V) : list string :=
  merge_sort str_le (elements (dom d)).

Definition q_le (x y : Q) : Prop := Qle_bool x y = true.

#[global] Instance q_le_dec (x y : Q) : Decision (q_le x y).
Proof. unfold q_le. apply _. Defined.

(** ** process.py *)

(** [date_range(start, stop)]: the days [start], [start + 1], ... before
    [stop]; nothing when [stop <= start]. *)
Definition date_range (start stop : Z) : list Z :=
  let count := stop - start in
  (fun i => start + i) <$> seqZ 0 count.

(** The first loop of [each_day]: fill [ymd2pair], asserting that no date
    comes twice. *)
Fixpoint index_days (days : list day) (ymd2pair : gmap string (Z * Z))
    : result (gmap string (Z * Z)) :=
  match days with
  | [] => Ok ymd2pair
  | d :: rest =>
      let ymd := date d in
      _ ← assert (bool_decide (ymd2pair !! ymd = None)) DuplicateDayError;
      index_days rest (<[ymd := (count d, uniques d)]> ymd2pair)
  end.

(** [ymd2pair[ymd]] on the [defaultdict]: a missing day reads [zero_pair].
    (The read also stores the default under the key; nothing tests the
    keys of [ymd2pair] afterwards.) *)
Definition zero_pair : Z * Z := (0, 0).

Definition lookup_day (ymd2pair : gmap string (Z * Z)) (ymd : string)
    : Z * Z :=
  default zero_pair (ymd2pair !! ymd).

Section Process.

(** Offset of local time from UTC, in seconds. *)
Variable tz : Z.

(** [each_day(days, fetch_time, window_days)].  The generator raises, if
    it does, before its first [yield]: the result is either the whole
    list of yielded tuples or the exception. *)
Definition each_day (days : list day) (fetch_time : Q) (window_days : Z)
    : result (list observation) :=
  ymd2pair ← index_days days ∅;
  fetch_date ← fromtimestamp tz fetch_time;
  start ← date_sub fetch_date (window_days - 2);
  stop ← date_sub fetch_date 1;
  Ok ((fun d =>
         let ymd := strftime d in
         let '(count, unique) := lookup_day ymd2pair ymd in
         (ymd, count, unique)) <$> date_range start stop).

(** The inner loop of [get_daily_stats] over the tuples of one crawl. *)
Fixpoint merge_days (obs : list observation)
    (date2pair : gmap string (Z * Z)) : result (gmap string (Z * Z)) :=
  match obs with
  | [] => Ok date2pair
  | (date, count, unique) :: rest =>
      match date2pair !! date with
      | None => merge_days rest (<[date := (count, unique)]> date2pair)
      | Some first_pair =>
          _ ← assert (bool_decide (first_pair = (count, unique)))
                ReconciliationConflictError;
          merge_days rest date2pair
      end
  end.

(** The outer loop of [get_daily_stats] over the crawls. *)
Fixpoint merge_crawls (objs : list snapshot) (key : daily_key)
    (window_days : Z) (date2pair : gmap string (Z * Z))
    : result (gmap string (Z * Z)) :=
  match objs with
  | [] => Ok date2pair
  | obj :: rest =>
      let days := daily (get_traffic key obj) in
      let fetch_time := time obj in
      obs ← each_day days fetch_time window_days;
      date2pair' ← merge_days obs date2pair;
      merge_crawls rest key window_days date2pair'
  end.

(** [counts, uniques = zip( *pairs)]: unpacking fails on no pairs. *)
Definition unzip_pairs (pairs : list (Z * Z)) : result (list Z * list Z) :=
  match pairs with
  | [] => Err ValueError
  | _ => Ok (fst <$> pairs, snd <$> pairs)
  end.

Definition get_daily_stats (objs : list snapshot) (key : daily_key)
    (window_days : Z) : result (list string * list Z * list Z) :=
  date2pair ← merge_crawls objs key window_days ∅;
  let dates := sorted_keys date2pair in
  let pairs := (fun date => date2pair !!! date) <$> dates in
  '(counts, uniques) ← unzip_pairs pairs;
  Ok (dates, counts, uniques).

Definition get_point_stats (objs : list snapshot) (key : point_key)
    : list Q * list Z :=
  (time <$> objs, get_point key <$> objs).

Definition noon_time_from_date (date : string) : result Q :=
  let noon_secs := 12 * 60 * 60 in
  d ← strptime date;
  Ok (mktime tz d + inject_Z noon_secs)%Q.

End Process.

(** ** The processed record ([json.dump(obj, out)]) *)

Record daily_series : Set := DailySeries {
  daily_dates : list string;
  daily_times : list Q;
  daily_clones : list Z;
  daily_cloners : list Z;
  daily_views : list Z;
  daily_viewers : list Z
}.

Record point_series : Set := PointSeries {
  point_times : list Q;
  point_forks : list Z;
  point_stars : list Z;
  point_watchers : list Z
}.

Record processed : Set := Processed {
  proc_repo : string;
  proc_daily : daily_series;
  proc_point : point_series
}.

(** The processed directory: file name to the record dumped in the file. *)
Abbreviation directory := (gmap string processed).

(** [==] on lists of timestamps. *)
Fixpoint times_eqb (l1 l2 : list Q) : bool :=
  match l1, l2 with
  | [], [] => true
  | x :: l1', y :: l2' => Qeq_bool x y && times_eqb l1' l2'
  | _, _ => false
  end.

(** [repo.replace('/', '.')] *)
Fixpoint replace_slash (s : string) : string :=
  match s with
  | EmptyString => EmptyString
  | String c s' =>
      String (if Ascii.eqb c "/" then "."%char else c) (replace_slash s')
  end.

(** The grouping loop of [process_repos]: [repo2objs[repo].append(obj)] on
    a [defaultdict(list)]. *)
Fixpoint group_by_repo (objs : list snapshot)
    (repo2objs : gmap string (list snapshot)) : gmap string (list snapshot) :=
  match objs with
  | [] => repo2objs
  | obj :: rest =>
      let repo := repo obj in
      group_by_repo rest (<[repo := (repo2objs !!! repo) ++ [obj]]> repo2objs)
  end.

Section Batch.

Variable tz : Z.

(** The dict [obj] that [process_repo] builds before it opens the file. *)
Definition process_repo_obj (repo : string) (objs : list snapshot)
    : result processed :=
  let window_days := 14 in
  '(dates, clones, cloners) ← get_daily_stats tz objs Clones window_days;
  '(dates2, views, viewers) ← get_daily_stats tz objs Views window_days;
  _ ← assert (bool_decide (dates = dates2)) MetricAlignmentError;
  daily_times ← mapM (noon_time_from_date tz) dates;
  let '(point_times, forks) := get_point_stats objs Forks in
  let '(times2, stars) := get_point_stats objs Stars in
  let '(times3, watchers) := get_point_stats objs Watchers in
  _ ← assert (times_eqb point_times times2 && times_eqb times2 times3)
        AlignmentError;
  Ok {| proc_repo := repo;
        proc_daily := {| daily_dates := dates;
                         daily_times := daily_times;
                         daily_clones := clones;
                         daily_cloners := cloners;
                         daily_views := views;
                         daily_viewers := viewers |};
        proc_point := {| point_times := point_times;
                         point_forks := forks;
                         point_stars := stars;
                         point_watchers := watchers |} |}.

(** [process_repo(repo, objs, proc_file)], on the state of the processed
    directory: the file is written once the record is complete. *)
Definition process_repo (repo : string) (objs : list snapshot)
    (proc_file : string) (dir : directory) : directory * result unit :=
  match process_repo_obj repo objs with
  | Ok obj => (<[proc_file := obj]> dir, Ok tt)
  | Err e => (dir, Err e)
  end.

(** The last loop of [process_repos]; an exception leaves the loop. *)
Fixpoint process_each (repo2objs : gmap string (list snapshot))
    (repos : list string) (dir : directory) : directory * result unit :=
  match repos with
  | [] => (dir, Ok tt)
  | repo :: rest =>
      let objs := repo2objs !!! repo in
      let repo_basename := (replace_slash repo ++ ".json")%string in
      match process_repo repo objs repo_basename dir with
      | (dir', Ok _) => process_each repo2objs rest dir'
      | (dir', Err e) => (dir', Err e)
      end
  end.

(** [process_repos(raw_file, proc_dir)].  [raw_file] is the parsed
    content of the raw log, [None] when the file is missing; [proc_dir]
    is the content of the processed directory, [None] when it does not
    exist. *)
Definition process_repos (raw_file : option (list snapshot))
    (proc_dir : option directory) : option directory * result unit :=
  match raw_file with
  | None => (proc_dir, Err ValueError)
  | Some [] => (proc_dir, Err ValueError)
  | Some objs =>
      let repo2objs := group_by_repo objs ∅ in
      (* rmtree(proc_dir) if it exists, then makedirs(proc_dir) *)
      let dir : directory := ∅ in
      let '(dir', r) := process_each repo2objs (sorted_keys repo2objs) dir in
      (Some dir', r)
  end.

End Batch.

(** ** verify_2wk_window.py *)

Module VerifyWindow.
Section Main.

Variable tz : Z.

(** The start of the first day listed: [days[0]['date']] parsed and
    turned into a timestamp. *)
Definition first_then (days : list day) : result Q :=
  match days with
  | [] => Err IndexError
  | d :: _ =>
      z ← strptime (date d);
      Ok (mktime tz z)
  end.

(** One iteration of the loop over the crawls. *)
Definition gap_of (obj : snapshot) : result Q :=
  let now := time obj in
  then1 ← first_then (daily (clones obj));
  then2 ← first_then (daily (views obj));
  let then_ := Qmin then1 then2 in
  Ok (now - then_)%Q.

Definition sec_per_day : Z := 24 * 60 * 60.
Definition two_weeks : Z := 14.

(** [main]: the values printed (none when the loop raised) and how the
    run ended. *)
Definition main (objs : list snapshot) : list Q * result unit :=
  match mapM gap_of objs with
  | Err e => ([], Err e)
  | Ok gaps =>
      let gaps := (fun gap => gap / inject_Z sec_per_day)%Q <$> gaps in
      let gaps := merge_sort q_le gaps in
      (gaps,
       match head gaps, last gaps with
       | Some lo, Some hi =>
           _ ← assert (Qle_bool 0 lo) GapNegativeError;
           assert (negb (Qle_bool (inject_Z two_weeks) hi)) GapTooLongError
       | _, _ => Err IndexError
       end)
  end.

End Main.
End VerifyWindow.

(** ** Notions used in the statements *)

(** The sparse [daily] list read as key-value pairs: what the first loop of
    [each_day] stores when no date comes twice. *)
Definition day_pairs (days : list day) : list (string * (Z * Z)) :=
  (fun d => (date d, (count d, uniques d))) <$> days.

(** The date strings of a list of yielded tuples. *)
Definition obs_dates (obs : list observation) : list string :=
  (fun o => o.1.1) <$> obs.

(** The yielded tuples as key-value pairs. *)
Definition obs_pairs (obs : list observation) : list (string * (Z * Z)) :=
  (fun o => (o.1.1, (o.1.2, o.2))) <$> obs.

(** The expanded windows of the crawls of one repository for one metric,
    in the order of the crawls; defined when every crawl expands. *)
Definition expanded_windows (tz : Z) (objs : list snapshot) (key : daily_key)
    (window_days : Z) : result (list (list observation)) :=
  mapM (fun obj =>
          each_day tz (daily (get_traffic key obj)) (time obj) window_days)
       objs.

(** The first pair observed for a date. *)
Fixpoint first_observed (obs : list observation) (ymd : string)
    : option (Z * Z) :=
  match obs with
  | [] => None
  | (d, c, u) :: rest =>
      if decide (d = ymd) then Some (c, u) else first_observed rest ymd
  end.

(** No two observations of one date differ. *)
Definition conflict_free (obs : list observation) : Prop :=
  forall ymd c1 u1 c2 u2,
    (ymd, c1, u1) ∈ obs -> (ymd, c2, u2) ∈ obs -> (c1, u1) = (c2, u2).

(** The day of the first entry of a [daily] list, when the list has one and
    its date parses. *)
Definition first_day (days : list day) : option Z :=
  match days with
  | [] => None
  | d :: _ =>
      match strptime (date d) with
      | Ok z => Some z
      | Err _ => None
      end
  end.

(** The gap of a crawl, in days: from the start (local midnight) of the
    earlier of the two first days, clones and views, to the fetch time. *)
Definition gap_days (tz : Z) (obj : snapshot) : option Q :=
  z1 ← first_day (daily (clones obj));
  z2 ← first_day (daily (views obj));
  Some ((time obj - mktime tz (Z.min z1 z2)) / inject_Z 86400)%Q.

(** A gap within the two-week window. *)
Definition gap_in_window (g : Q) : Prop := (0 <= g)%Q /\ (g < inject_Z 14)%Q.

(** ** Example crawls *)

Module Examples.

(** Two crawls of one repository a week apart; their windows overlap and
    agree. *)
Definition crawl1 : snapshot :=
  {| time := 1700000000 # 1; repo := "acme/widget";
     stars := 10; watchers := 2; forks := 3;
     clones := Traffic 3 2 [Day "2023-11-05" 3 2];
     views := Traffic 7 1 [Day "2023-11-12" 7 1] |}.

Definition crawl2 : snapshot :=
  {| time := 1700604800 # 1; repo := "acme/widget";
     stars := 11; watchers := 2; forks := 3;
     clones := Traffic 5 3 [Day "2023-11-19" 5 3];
     views := Traffic 9 2 [Day "2023-11-12" 7 1; Day "2023-11-15" 2 1] |}.

(** A crawl of the next day that contradicts [crawl1] on 5 November. *)
Definition crawl3 : snapshot :=
  {| time := 1700086400 # 1; repo := "acme/widget";
     stars := 10; watchers := 2; forks := 3;
     clones := Traffic 4 2 [Day "2023-11-05" 4 2];
     views := Traffic 7 1 [Day "2023-11-12" 7 1] |}.

(** A crawl of another repository. *)
Definition crawl4 : snapshot :=
  {| time := 1700000001 # 1; repo := "acme/gadget";
     stars := 1; watchers := 1; forks := 0;
     clones := Traffic 1 1 [Day "2023-11-10" 1 1];
     views := Traffic 2 2 [Day "2023-11-10" 2 2] |}.


(** A crawl whose first day of clones is 20 days before the fetch. *)
Definition crawl6 : snapshot :=
  {| time := 1700000000 # 1; repo := "acme/widget";
     stars := 10; watchers := 2; forks := 3;
     clones := Traffic 3 2 [Day "2023-10-25" 3 2];
     views := Traffic 7 1 [Day "2023-11-12" 7 1] |}.

End Examples.

(** ** fetch.py: from the API's answer to a crawl record *)

(** A [Clones] or [View] object of the API client, as [day_to_json] reads
    it: [str(obj.timestamp)], [obj.count] and [obj.uniques]. *)
Record api_day : Set := ApiDay {
  timestamp_str : string;
  api_count : Z;
  api_uniques : Z
}.

(** The dict [get_clones_traffic()] or [get_views_traffic()] returns: its
    ['count'], its ['uniques'] and the list under its ['clones'] or
    ['views'] key. *)
Record api_traffic : Set := ApiTraffic {
  api_total : Z;
  api_total_uniques : Z;
  api_days : list api_day
}.

(** [s.index(' ')] *)
Fixpoint index_space (s : string) : result nat :=
  match s with
  | EmptyString => Err ValueError
  | String c s' =>
      if Ascii.eqb c " " then Ok 0%nat
      else n ← index_space s'; Ok (S n)
  end.

(** [s[:n]] *)
Fixpoint str_take (n : nat) (s : string) : string :=
  match n, s with
  | S n', String c s' => String c (str_take n' s')
  | _, _ => EmptyString
  end.

Definition day_to_json (obj : api_day) : result day :=
  let s := timestamp_str obj in
  n ← index_space s;
  let date := str_take n s in
  Ok {| date := date; count := api_count obj; uniques := api_uniques obj |}.

Definition traffic_to_json (obj : api_traffic) : result traffic :=
  days ← mapM day_to_json (api_days obj);
  Ok {| total_count := api_total obj;
        total_uniques := api_total_uniques obj;
        daily := days |}.

(** ** plot.py *)

(** The keys of the series plotted from [obj['daily']]; those plotted from
    [obj['point']] are the [point_key]s. *)
Inductive daily_field : Set := PlotViews | PlotViewers | PlotClones | PlotCloners.

(** A row of [fields] without its colour and line style: the key and the
    part of the record it is read from. *)
Inductive plot_field : Set :=
  | OfDaily (key : daily_field)
  | OfPoint (key : point_key).

Definition field_label (f : plot_field) : string :=
  match f with
  | OfDaily PlotViews => "views"
  | OfDaily PlotViewers => "viewers"
  | OfDaily PlotClones => "clones"
  | OfDaily PlotCloners => "cloners"
  | OfPoint Stars => "stars"
  | OfPoint Forks => "forks"
  | OfPoint Watchers => "watchers"
  end.

(** [obj[which][key]] *)
Definition field_values (obj : processed) (f : plot_field) : list Z :=
  match f with
  | OfDaily PlotViews => daily_views (proc_daily obj)
  | OfDaily PlotViewers => daily_viewers (proc_daily obj)
  | OfDaily PlotClones => daily_clones (proc_daily obj)
  | OfDaily PlotCloners => daily_cloners (proc_daily obj)
  | OfPoint Stars => point_stars (proc_point obj)
  | OfPoint Forks => point_forks (proc_point obj)
  | OfPoint Watchers => point_watchers (proc_point obj)
  end.

Definition fields : list (plot_field * string * string) :=
  [ (OfDaily PlotViews, "#48f", ":");
    (OfDaily PlotViewers, "#48f", "-");
    (OfDaily PlotClones, "#0b0", ":");
    (OfDaily PlotCloners, "#0b0", "-");
    (OfPoint Stars, "#fc0", "-");
    (OfPoint Forks, "#f80", "-");
    (OfPoint Watchers, "#f00", "-") ].

(** The arguments of one [plt.plot] call. *)
Record curve : Set := Curve {
  curve_label : string;
  curve_color : string;
  curve_style : string;
  curve_dates : list Z;
  curve_values : list Z
}.

(** What [plt.savefig] draws: the title and the curves plotted. *)
Record figure : Set := Figure {
  fig_title : string;
  fig_curves : list curve
}.

(** [s.endswith(suffix)] and [s[:-n]] *)
Definition str_endswith (suffix s : string) : bool :=
  String.eqb
    (String.substring (String.length s - String.length suffix)
       (String.length suffix) s) suffix
  && (String.length suffix <=? String.length s)%nat.

Definition str_drop_last (n : nat) (s : string) : string :=
  str_take (String.length s - n) s.

(** How a run of [plot_repos] ends. *)
Inductive plot_outcome : Set :=
  | PlotDone
  | PlotNameAssertion                (* assert proc_basename.endswith('.json') *)
  | PlotRaised (e : exception).

Section Plot.

Variable tz : Z.

(** [plot_repo], from the loaded record to the figure saved.  [plt.plot]
    raises [ValueError] when its two lists differ in length. *)
Definition plot_repo (obj : processed) : result figure :=
  let repo := proc_repo obj in
  daily_dates ← mapM (fromtimestamp tz) (daily_times (proc_daily obj));
  point_dates ← mapM (fromtimestamp tz) (point_times (proc_point obj));
  let which2dates f :=
    match f with
    | OfDaily _ => daily_dates
    | OfPoint _ => point_dates
    end in
  curves ← mapM (fun '(key, color, line_style) =>
                   let dates := which2dates key in
                   let values := field_values obj key in
                   if decide (length dates = length values) then
                     Ok {| curve_label := field_label key;
                           curve_color := color;
                           curve_style := line_style;
                           curve_dates := dates;
                           curve_values := values |}
                   else Err ValueError) fields;
  Ok {| fig_title := (repo ++ " traffic")%string; fig_curves := curves |}.

(** The loop of [plot_repos] over the sorted file names. *)
Fixpoint plot_each (proc_dir : directory) (proc_basenames : list string)
    (plots : gmap string figure) : gmap string figure * plot_outcome :=
  match proc_basenames with
  | [] => (plots, PlotDone)
  | proc_basename :: rest =>
      if str_endswith ".json" proc_basename then
        let plot_basename := (str_drop_last 5 proc_basename ++ ".png")%string in
        match proc_dir !! proc_basename with
        | None => plot_each proc_dir rest plots
        | Some obj =>
            match plot_repo obj with
            | Ok fig =>
                plot_each proc_dir rest (<[plot_basename := fig]> plots)
            | Err e => (plots, PlotRaised e)
            end
        end
      else (plots, PlotNameAssertion)
  end.

(** [plot_repos(proc_dir, plot_dir)] on an existing processed directory;
    [plot_dir] is the content of the plot directory, [None] when it does
    not exist. *)
Definition plot_repos (proc_dir : directory)
    (plot_dir : option (gmap string figure))
    : gmap string figure * plot_outcome :=
  (* rmtree(plot_dir) if it exists, then makedirs(plot_dir) *)
  plot_each proc_dir (sorted_keys proc_dir) ∅.

End Plot.

(** ** More notions used in the statements *)

(** A crawl cut down to what the verifier reads: the first entry of each
    [daily] list. *)
Definition first_entry (t : traffic) : traffic :=
  {| total_count := total_count t;
     total_uniques := total_uniques t;
     daily := take 1 (daily t) |}.

Definition first_entries (obj : snapshot) : snapshot :=
  {| time := time obj; repo := repo obj; stars := stars obj;
     watchers := watchers obj; forks := forks obj;
     clones := first_entry (clones obj);
     views := first_entry (views obj) |}.

(** A repository name as the hosting service forms it: an owner without
    ['.'] and ['/'], a ['/'], and a name without ['/']. *)
Fixpoint no_char (c : ascii) (s : string) : bool :=
  match s with
  | EmptyString => true
  | String c' s' => negb (Ascii.eqb c' c) && no_char c s'
  end.

Definition full_name (owner name : string) : string :=
  (owner ++ "/" ++ name)%string.

Definition well_formed_name (r : string) : Prop :=
  exists owner name,
    r = full_name owner name /\ no_char "." owner = true
    /\ no_char "/" owner = true /\ no_char "/" name = true.

(** ** More examples *)

Module MoreExamples.

(** A crawl of the day after [crawl1] whose list of clones is empty. *)
Definition crawl7 : snapshot :=
  {| time := 1700086400 # 1; repo := "acme/widget";
     stars := 10; watchers := 2; forks := 3;
     clones := Traffic 0 0 [];
     views := Traffic 7 1 [Day "2023-11-12" 7 1] |}.

(** The clones the API lists for one day. *)
Definition api_clones : api_traffic :=
  ApiTraffic 3 2 [ApiDay "2023-11-05 00:00:00+00:00" 3 2].

End MoreExamples.

(** * Properties *)

(** ** The calendar *)

Module CalendarFacts.
Import Calendar.

Lemma cycle_ok_true : all_below cycle_day_ok 146097 = true.
Proof. vm_cast_no_check (eq_refl true). Qed.

Lemma all_below_spec f n i :
  all_below f n = true -> 0 <= i < Z.pos n -> f i = true.
Proof.
  unfold all_below. rewrite Pos2Nat.inj_iter.
  rewrite <- (positive_nat_Z n). generalize (Pos.to_nat n) as k. clear n.
  set (step := fun '(i, b) => (i + 1, b && f i)).
  assert (Hinv : forall k,
    (Nat.iter k step (0, true)).1 = Z.of_nat k /\
    ((Nat.iter k step (0, true)).2 = true ->
     forall j, 0 <= j < Z.of_nat k -> f j = true)).
  { induction k as [|k [IH1 IH2]]; [split; [done|lia]|].
    rewrite Nat.iter_succ. destruct (Nat.iter k step (0, true)) as [i0 b0].
    simpl in *. subst i0. split; [lia|].
    intros [Hb Hf]%andb_prop j Hj.
    destruct (decide (j = Z.of_nat k)) as [->|]; [done|].
    apply IH2; [done|lia]. }
  intros k H Hi. by apply (Hinv k).
Qed.

Lemma cycle_day_ok_true doe :
  0 <= doe < cycle_days -> cycle_day_ok doe = true.
Proof. intros H. exact (all_below_spec cycle_day_ok 146097 doe cycle_ok_true H). Qed.

(** The civil date of a day of the cycle, as [civil_from_days] uses it. *)
Lemma civil_from_days_eq z :
  civil_from_days z =
    let '(y, m, d) := civil_of_doe ((z + cycle_shift) mod cycle_days) in
    (y + 400 * ((z + cycle_shift) / cycle_days), m, d).
Proof. reflexivity. Qed.

Lemma doe_bounds z : 0 <= (z + cycle_shift) mod cycle_days < cycle_days.
Proof. apply Z.mod_pos_bound. reflexivity. Qed.

Lemma civil_ranges z y m d :
  civil_from_days z = (y, m, d) -> 1 <= m <= 12 /\ 1 <= d <= 31.
Proof.
  rewrite civil_from_days_eq.
  pose proof (cycle_day_ok_true _ (doe_bounds z)) as Hok.
  unfold cycle_day_ok in Hok.
  destruct (civil_of_doe _) as [[y0 m0] d0].
  intros [= <- <- <-].
  repeat (apply andb_prop in Hok as [Hok ?]).
  assert (days_in_month y0 m0 <= 31).
  { unfold days_in_month. repeat case_match; lia. }
  lia.
Qed.

(** Within a cycle the key grows with the day. *)
Lemma doe_key_step doe :
  0 <= doe < cycle_days ->
  ymd_key (civil_of_doe doe) < ymd_key (civil_of_doe (doe + 1)).
Proof.
  intros H. pose proof (cycle_day_ok_true _ H) as Hok.
  unfold cycle_day_ok in Hok.
  destruct (civil_of_doe doe) as [[y0 m0] d0].
  repeat (apply andb_prop in Hok as [Hok ?]). lia.
Qed.

Lemma doe_key_mono a b :
  0 <= a -> a < b -> b <= cycle_days ->
  ymd_key (civil_of_doe a) < ymd_key (civil_of_doe b).
Proof.
  intros Ha Hab Hb.
  assert (Hgen : forall n, 0 <= n -> a + 1 + n <= cycle_days ->
            ymd_key (civil_of_doe a) < ymd_key (civil_of_doe (a + 1 + n))).
  { apply (natlike_ind (fun n => a + 1 + n <= cycle_days ->
            ymd_key (civil_of_doe a) < ymd_key (civil_of_doe (a + 1 + n)))).
    - intros _. rewrite Z.add_0_r. apply doe_key_step. unfold cycle_days in *. lia.
    - intros n Hn IH Hle.
      replace (a + 1 + Z.succ n) with (a + 1 + n + 1) by lia.
      etrans; [apply IH; lia|]. apply doe_key_step. lia. }
  replace b with (a + 1 + (b - a - 1)) by lia. apply Hgen; lia.
Qed.

Lemma doe_key_range doe :
  0 <= doe < cycle_days -> 97 <= ymd_key (civil_of_doe doe) <= 204893.
Proof.
  intros H.
  assert (ymd_key (civil_of_doe 0) = 97) as H0 by reflexivity.
  assert (ymd_key (civil_of_doe (cycle_days - 1)) = 204893) as H1
    by reflexivity.
  destruct (decide (doe = 0)) as [->|].
  { rewrite H0. lia. }
  destruct (decide (doe = cycle_days - 1)) as [->|].
  { rewrite H1. lia. }
  pose proof (doe_key_mono 0 doe). pose proof (doe_key_mono doe (cycle_days - 1)).
  unfold cycle_days in *. lia.
Qed.

Lemma civil_key z :
  ymd_key (civil_from_days z) =
    204800 * ((z + cycle_shift) / cycle_days)
    + ymd_key (civil_of_doe ((z + cycle_shift) mod cycle_days)).
Proof.
  rewrite civil_from_days_eq.
  destruct (civil_of_doe _) as [[y m] d]. unfold ymd_key. lia.
Qed.

(** A later day has a larger key. *)
Lemma civil_key_mono z1 z2 :
  z1 < z2 -> ymd_key (civil_from_days z1) < ymd_key (civil_from_days z2).
Proof.
  intros Hlt. rewrite !civil_key.
  pose proof (doe_bounds z1) as B1. pose proof (doe_bounds z2) as B2.
  pose proof (doe_key_range _ B1). pose proof (doe_key_range _ B2).
  pose proof (Z.div_mod (z1 + cycle_shift) cycle_days ltac:(discriminate)) as E1.
  pose proof (Z.div_mod (z2 + cycle_shift) cycle_days ltac:(discriminate)) as E2.
  set (e1 := (z1 + cycle_shift) / cycle_days) in *.
  set (e2 := (z2 + cycle_shift) / cycle_days) in *.
  set (r1 := (z1 + cycle_shift) mod cycle_days) in *.
  set (r2 := (z2 + cycle_shift) mod cycle_days) in *.
  destruct (Z.lt_trichotomy e1 e2) as [He|[He|He]].
  - lia.
  - rewrite He in *. assert (r1 < r2) by lia.
    pose proof (doe_key_mono r1 r2). lia.
  - exfalso. unfold cycle_days in *. nia.
Qed.

Lemma compare_String a s b t :
  String.compare (String a s) (String b t)
  = lexc (Ascii.compare a b) (String.compare s t).
Proof. simpl. by destruct (Ascii.compare a b). Qed.

Lemma digit_compare a b :
  Ascii.compare (digit a) (digit b) = (a mod 10 ?= b mod 10).
Proof.
  unfold Ascii.compare, digit.
  pose proof (Z.mod_pos_bound a 10 eq_refl).
  pose proof (Z.mod_pos_bound b 10 eq_refl).
  rewrite !N_ascii_embedding by lia.
  rewrite (Z2N.inj_compare (48 + a mod 10) (48 + b mod 10)) by lia.
  apply Z.add_compare_mono_l.
Qed.

Lemma fmt2_compare n1 n2 r1 r2 :
  0 <= n1 < 100 -> 0 <= n2 < 100 ->
  String.compare (fmt2 n1 r1) (fmt2 n2 r2)
  = lexc (n1 ?= n2) (String.compare r1 r2).
Proof.
  intros H1 H2. unfold fmt2. rewrite !compare_String, !digit_compare.
  pose proof (Z.div_mod n1 10 ltac:(done)).
  pose proof (Z.div_mod n2 10 ltac:(done)).
  pose proof (Z.mod_pos_bound n1 10 eq_refl).
  pose proof (Z.mod_pos_bound n2 10 eq_refl).
  rewrite (Z.mod_small (n1 / 10)) by lia.
  rewrite (Z.mod_small (n2 / 10)) by lia.
  destruct (Z.compare_spec (n1 / 10) (n2 / 10));
    destruct (Z.compare_spec (n1 mod 10) (n2 mod 10));
    destruct (Z.compare_spec n1 n2); simpl; try done; lia.
Qed.

Lemma fmt4_compare n1 n2 r1 r2 :
  0 <= n1 < 10000 -> 0 <= n2 < 10000 ->
  String.compare (fmt4 n1 r1) (fmt4 n2 r2)
  = lexc (n1 ?= n2) (String.compare r1 r2).
Proof.
  intros H1 H2. unfold fmt4, fmt2.
  rewrite !compare_String, !digit_compare.
  pose proof (Z.div_mod n1 10 ltac:(done)).
  pose proof (Z.div_mod n2 10 ltac:(done)).
  pose proof (Z.div_mod (n1 / 10) 10 ltac:(done)).
  pose proof (Z.div_mod (n2 / 10) 10 ltac:(done)).
  pose proof (Z.div_mod (n1 / 100) 10 ltac:(done)).
  pose proof (Z.div_mod (n2 / 100) 10 ltac:(done)).
  pose proof (Z.mod_pos_bound n1 10 eq_refl).
  pose proof (Z.mod_pos_bound n2 10 eq_refl).
  pose proof (Z.mod_pos_bound (n1 / 10) 10 eq_refl).
  pose proof (Z.mod_pos_bound (n2 / 10) 10 eq_refl).
  pose proof (Z.mod_pos_bound (n1 / 100) 10 eq_refl).
  pose proof (Z.mod_pos_bound (n2 / 100) 10 eq_refl).
  replace (n1 / 100) with (n1 / 10 / 10) in * by (rewrite Z.div_div by lia; reflexivity).
  replace (n2 / 100) with (n2 / 10 / 10) in * by (rewrite Z.div_div by lia; reflexivity).
  replace (n1 / 1000) with (n1 / 10 / 10 / 10) in * by (rewrite !Z.div_div by lia; reflexivity).
  replace (n2 / 1000) with (n2 / 10 / 10 / 10) in * by (rewrite !Z.div_div by lia; reflexivity).
  rewrite (Z.mod_small (n1 / 10 / 10 / 10)) by lia.
  rewrite (Z.mod_small (n2 / 10 / 10 / 10)) by lia.
  destruct (Z.compare_spec (n1 / 10 / 10 / 10) (n2 / 10 / 10 / 10));
    destruct (Z.compare_spec ((n1 / 10 / 10) mod 10) ((n2 / 10 / 10) mod 10));
    destruct (Z.compare_spec ((n1 / 10) mod 10) ((n2 / 10) mod 10));
    destruct (Z.compare_spec (n1 mod 10) (n2 mod 10));
    destruct (Z.compare_spec n1 n2); simpl; try done; lia.
Qed.


Lemma format_compare y1 m1 d1 y2 m2 d2 :
  0 <= y1 < 10000 -> 0 <= y2 < 10000 ->
  0 <= m1 < 100 -> 0 <= m2 < 100 -> 0 <= d1 < 100 -> 0 <= d2 < 100 ->
  String.compare (format_ymd (y1, m1, d1)) (format_ymd (y2, m2, d2))
  = lexc (y1 ?= y2) (lexc (m1 ?= m2) (d1 ?= d2)).
Proof.
  intros. unfold format_ymd.
  rewrite fmt4_compare, compare_String by done.
  rewrite fmt2_compare, compare_String by done.
  rewrite fmt2_compare by done. simpl.
  by destruct (y1 ?= y2), (m1 ?= m2), (d1 ?= d2).
Qed.

(** In the range of [date] the year has four digits. *)
Lemma civil_year_range z y m d :
  in_range z = true -> civil_from_days z = (y, m, d) -> 1 <= y <= 9999.
Proof.
  unfold in_range. intros [Hlo Hhi]%andb_prop Hc.
  pose proof (civil_ranges _ _ _ _ Hc) as [Hm Hd].
  assert (ymd_key (civil_from_days MINDAY) <= ymd_key (civil_from_days z)).
  { destruct (decide (z = MINDAY)) as [->|]; [done|].
    apply Z.lt_le_incl, civil_key_mono. lia. }
  assert (ymd_key (civil_from_days z) <= ymd_key (civil_from_days MAXDAY)).
  { destruct (decide (z = MAXDAY)) as [->|]; [done|].
    apply Z.lt_le_incl, civil_key_mono. lia. }
  assert (ymd_key (civil_from_days MINDAY) = 545) as E1 by reflexivity.
  assert (ymd_key (civil_from_days MAXDAY) = 512 * 9999 + 32 * 12 + 31) as E2
    by reflexivity.
  rewrite Hc in *. unfold ymd_key in *. lia.
Qed.

(** [strftime] turns the order of days into the order of strings. *)
Lemma strftime_compare z1 z2 :
  in_range z1 = true -> in_range z2 = true -> z1 < z2 ->
  String.compare (strftime z1) (strftime z2) = Lt.
Proof.
  intros R1 R2 Hlt. unfold strftime.
  pose proof (civil_key_mono _ _ Hlt) as Hk.
  destruct (civil_from_days z1) as [[y1 m1] d1] eqn:E1.
  destruct (civil_from_days z2) as [[y2 m2] d2] eqn:E2.
  pose proof (civil_ranges _ _ _ _ E1). pose proof (civil_ranges _ _ _ _ E2).
  pose proof (civil_year_range _ _ _ _ R1 E1).
  pose proof (civil_year_range _ _ _ _ R2 E2).
  rewrite format_compare by lia. unfold ymd_key in Hk.
  destruct (Z.compare_spec y1 y2); simpl; [|done|lia].
  destruct (Z.compare_spec m1 m2); simpl; [|done|lia].
  destruct (Z.compare_spec d1 d2); simpl; [|done|lia]. lia.
Qed.

Lemma strftime_inj z1 z2 :
  in_range z1 = true -> in_range z2 = true ->
  strftime z1 = strftime z2 -> z1 = z2.
Proof.
  intros R1 R2 Heq.
  assert (Hrefl : forall s, String.compare s s = Eq).
  { induction s as [|c s IH]; [done|]. rewrite compare_String, IH.
    unfold Ascii.compare. by rewrite N.compare_refl. }
  destruct (Z.lt_trichotomy z1 z2) as [H|[H|H]]; [|done|].
  - pose proof (strftime_compare _ _ R1 R2 H) as Hc.
    rewrite Heq, Hrefl in Hc. done.
  - pose proof (strftime_compare _ _ R2 R1 H) as Hc.
    rewrite Heq, Hrefl in Hc. done.
Qed.

(** *** [strptime] reads back what [strftime] writes *)

Lemma is_leap_cycle y e : is_leap (y + 400 * e) = is_leap y.
Proof.
  unfold is_leap.
  replace (y + 400 * e) with (y + (100 * e) * 4) at 1 by lia.
  replace (y + 400 * e) with (y + (4 * e) * 100) at 1 by lia.
  replace (y + 400 * e) with (y + e * 400) by lia.
  by rewrite !Z_mod_plus_full.
Qed.

Lemma days_from_civil_cycle y m d e :
  days_from_civil (y + 400 * e) m d
  = days_from_civil y m d + e * cycle_days.
Proof.
  unfold days_from_civil.
  set (y' := if m <=? 2 then y - 1 else y).
  replace (if m <=? 2 then y + 400 * e - 1 else y + 400 * e)
    with (y' + e * 400) by (unfold y'; case_match; lia).
  rewrite Z_div_plus_full, Z_mod_plus_full by done. lia.
Qed.

Lemma days_from_civil_from_days z :
  let '(y, m, d) := civil_from_days z in days_from_civil y m d = z.
Proof.
  rewrite civil_from_days_eq.
  pose proof (cycle_day_ok_true _ (doe_bounds z)) as Hok.
  unfold cycle_day_ok in Hok.
  destruct (civil_of_doe _) as [[y0 m0] d0].
  repeat (apply andb_prop in Hok as [Hok ?]).
  rewrite days_from_civil_cycle.
  pose proof (Z.div_mod (z + cycle_shift) cycle_days ltac:(done)). lia.
Qed.

Lemma civil_day_valid z y m d :
  civil_from_days z = (y, m, d) -> d <= days_in_month y m.
Proof.
  rewrite civil_from_days_eq.
  pose proof (cycle_day_ok_true _ (doe_bounds z)) as Hok.
  unfold cycle_day_ok in Hok.
  destruct (civil_of_doe _) as [[y0 m0] d0].
  intros [= <- <- <-].
  repeat (apply andb_prop in Hok as [Hok ?]).
  unfold days_in_month in *. rewrite is_leap_cycle. lia.
Qed.

Lemma digit_val_digit n : digit_val (digit n) = Some (n mod 10).
Proof.
  unfold digit_val, digit.
  pose proof (Z.mod_pos_bound n 10 eq_refl).
  rewrite N_ascii_embedding by lia. rewrite Z2N.id by lia.
  case_match eqn:E; [f_equal; lia|].
  apply andb_false_iff in E as [E|E]; lia.
Qed.

Lemma parse_month_day_fmt m d :
  1 <= m <= 12 -> 1 <= d <= 31 ->
  parse_month_day (fmt2 m (String "-" (fmt2 d EmptyString))) = Some (m, d).
Proof.
  intros Hm Hd.
  assert (Hcases : forall k lo hi (P : Z -> Prop), lo <= k <= hi ->
            (forall i, (i < Z.to_nat (hi - lo + 1))%nat -> P (lo + Z.of_nat i)) ->
            P k).
  { intros k lo hi P Hk HP.
    replace k with (lo + Z.of_nat (Z.to_nat (k - lo))) by lia.
    apply HP. lia. }
  revert d Hd. pattern m. apply (Hcases m 1 12); [done|].
  intros i Hi d Hd. pattern d. apply (Hcases d 1 31); [done|].
  intros j Hj. revert Hi Hj. simpl Z.to_nat.
  do 12 (destruct i as [|i]; [do 31 (destruct j as [|j]; [reflexivity|]); lia|]).
  lia.
Qed.

Lemma strptime_strftime z : in_range z = true -> strptime (strftime z) = Ok z.
Proof.
  intros R. unfold strftime.
  pose proof (days_from_civil_from_days z) as Hinv.
  destruct (civil_from_days z) as [[y m] d] eqn:E.
  pose proof (civil_ranges _ _ _ _ E) as [Hm Hd].
  pose proof (civil_year_range _ _ _ _ R E) as Hy.
  pose proof (civil_day_valid _ _ _ _ E) as Hv.
  unfold format_ymd, fmt4. unfold fmt2 at 1. unfold strptime.
  unfold parse_year. rewrite !digit_val_digit.
  rewrite parse_month_day_fmt by done.
  pose proof (Z.div_mod y 10 ltac:(done)).
  pose proof (Z.div_mod (y / 10) 10 ltac:(done)).
  pose proof (Z.div_mod (y / 10 / 10) 10 ltac:(done)).
  pose proof (Z.mod_pos_bound y 10 eq_refl).
  pose proof (Z.mod_pos_bound (y / 10) 10 eq_refl).
  pose proof (Z.mod_pos_bound (y / 10 / 10) 10 eq_refl).
  replace (y / 100) with (y / 10 / 10) in * by (rewrite Z.div_div by lia; reflexivity).
  replace (y / 1000) with (y / 10 / 10 / 10) in * by (rewrite !Z.div_div by lia; reflexivity).
  rewrite (Z.mod_small (y / 10 / 10 / 10)) by lia.
  replace (1000 * (y / 10 / 10 / 10) + 100 * ((y / 10 / 10) mod 10)
           + 10 * ((y / 10) mod 10) + y mod 10) with y by lia.
  replace (1 <=? y) with true by lia.
  replace (d <=? days_in_month y m) with true by lia.
  simpl. by rewrite Hinv.
Qed.

End CalendarFacts.

(** ** The order of strings and [sorted] *)

Section StringOrder.

Lemma str_compare_refl s : String.compare s s = Eq.
Proof.
  induction s as [|c s IH]; [done|]. simpl.
  unfold Ascii.compare. by rewrite N.compare_refl.
Qed.

Lemma str_compare_lt_trans a b c :
  String.compare a b = Lt -> String.compare b c = Lt ->
  String.compare a c = Lt.
Proof.
  revert b c. induction a as [|x a IH]; intros [|y b] [|z c]; simpl; try done.
  unfold Ascii.compare.
  destruct (N.compare_spec (N_of_ascii x) (N_of_ascii y)) as [Exy|Lxy|Gxy];
    destruct (N.compare_spec (N_of_ascii y) (N_of_ascii z)) as [Eyz|Lyz|Gyz];
    destruct (N.compare_spec (N_of_ascii x) (N_of_ascii z)) as [Exz|Lxz|Gxz];
    try done; try lia.
  apply IH.
Qed.

#[global] Instance str_le_refl : Reflexive str_le.
Proof. intros s. unfold str_le, String.leb. by rewrite str_compare_refl. Qed.

#[global] Instance str_le_trans : Transitive str_le.
Proof.
  intros a b c. unfold str_le, String.leb.
  destruct (String.compare a b) eqn:Eab; [| |done].
  { apply String.compare_eq_iff in Eab as ->. done. }
  destruct (String.compare b c) eqn:Ebc; [| |done].
  { apply String.compare_eq_iff in Ebc as ->. by rewrite Eab. }
  by rewrite (str_compare_lt_trans _ _ _ Eab Ebc).
Qed.

#[global] Instance str_le_antisym : AntiSymm (=) str_le.
Proof. intros a b. apply String.leb_antisym. Qed.

#[global] Instance str_le_total : Total str_le.
Proof. intros a b. apply String.leb_total. Qed.

Lemma sorted_keys_sorted {V} (d : gmap string V) :
  Sorted str_le (sorted_keys d).
Proof. apply (Sorted_merge_sort str_le). Qed.

Lemma sorted_keys_perm {V} (d : gmap string V) :
  sorted_keys d ≡ₚ elements (dom d).
Proof. apply (merge_sort_Permutation str_le). Qed.

Lemma elem_of_sorted_keys {V} (d : gmap string V) k :
  k ∈ sorted_keys d <-> is_Some (d !! k).
Proof. by rewrite sorted_keys_perm, elem_of_elements, elem_of_dom. Qed.

Lemma NoDup_sorted_keys {V} (d : gmap string V) : NoDup (sorted_keys d).
Proof. rewrite sorted_keys_perm. apply NoDup_elements. Qed.

(** [sorted] only depends on the set of keys. *)
Lemma sorted_keys_dom {V W} (d1 : gmap string V) (d2 : gmap string W) :
  dom d1 = dom d2 -> sorted_keys d1 = sorted_keys d2.
Proof. unfold sorted_keys. by intros ->. Qed.

(** A sorted list of distinct keys is what [sorted] returns on a dict
    with these keys. *)
Lemma sorted_keys_unique {V} (d : gmap string V) l :
  Sorted str_le l -> NoDup l -> (forall k, k ∈ l <-> is_Some (d !! k)) ->
  sorted_keys d = l.
Proof.
  intros Hs Hn Hl. apply (Sorted_unique str_le); [apply sorted_keys_sorted|done|].
  apply NoDup_Permutation; [apply NoDup_sorted_keys|done|].
  intros k. by rewrite elem_of_sorted_keys, Hl.
Qed.

End StringOrder.

Section DateStrings.
Import Calendar CalendarFacts.

Lemma date_range_seqZ start stop :
  date_range start stop = seqZ start (stop - start).
Proof.
  unfold date_range. rewrite <- (Z.add_0_r start) at 2.
  by rewrite <- fmap_add_seqZ.
Qed.

Lemma elem_of_date_range start stop d :
  d ∈ date_range start stop <-> start <= d < stop.
Proof. rewrite date_range_seqZ, elem_of_seqZ. lia. Qed.

Lemma strftime_le z1 z2 :
  in_range z1 = true -> in_range z2 = true -> z1 < z2 ->
  str_le (strftime z1) (strftime z2).
Proof.
  intros R1 R2 H. unfold str_le, String.leb.
  by rewrite strftime_compare.
Qed.

Lemma in_range_between a b z :
  in_range a = true -> in_range b = true -> a <= z <= b ->
  in_range z = true.
Proof. unfold in_range. lia. Qed.

(** The date strings of consecutive days are sorted and distinct. *)
Lemma strftime_seqZ_sorted a n :
  in_range a = true -> in_range (a + n) = true ->
  Sorted str_le (strftime <$> seqZ a n).
Proof.
  intros Ra Rb.
  apply (Sorted_fmap _
           (fun x y => in_range x = true /\ in_range y = true /\ x < y)).
  { intros x y (?&?&?). by apply strftime_le. }
  destruct (decide (n <= 0)) as [|Hn]; [rewrite seqZ_nil by done; constructor|].
  replace n with (Z.of_nat (Z.to_nat n)) in * by lia.
  clear Hn. revert a Ra Rb. generalize (Z.to_nat n) as k. clear n.
  induction k as [|k IH]; intros a Ra Rb; [constructor|].
  rewrite seqZ_cons by lia.
  replace (Z.pred (Z.of_nat (S k))) with (Z.of_nat k) by lia.
  assert (Rn : k <> 0%nat -> in_range (Z.succ a) = true).
  { intros. apply (in_range_between a (a + Z.of_nat (S k))); [done..|lia]. }
  constructor.
  - destruct k as [|k]; [constructor|].
    apply IH; [by apply Rn|]. rewrite <- Rb. f_equal. lia.
  - destruct k as [|k]; [constructor|].
    rewrite seqZ_cons by lia. constructor. split_and!; [done| |lia].
    by apply Rn.
Qed.

Lemma strftime_seqZ_NoDup a n :
  in_range a = true -> in_range (a + n) = true ->
  NoDup (strftime <$> seqZ a n).
Proof.
  intros Ra Rb. apply NoDup_fmap_2_strong; [|apply NoDup_seqZ].
  intros x y Hx%elem_of_seqZ Hy%elem_of_seqZ.
  apply strftime_inj; apply (in_range_between a (a + n)); (done || lia).
Qed.

End DateStrings.

Import CalendarFacts.

(** ** The result monad *)

Lemma bind_Ok {A B} (r : result A) (k : A -> result B) b :
  r ≫= k = Ok b <-> exists a, r = Ok a /\ k a = Ok b.
Proof.
  destruct r as [a|e]; simpl; split.
  - intros H. by exists a.
  - by intros (a' & [= <-] & H).
  - done.
  - by intros (a' & [=] & _).
Qed.

Lemma bind_Err {A B} (r : result A) (k : A -> result B) e :
  r ≫= k = Err e <-> r = Err e \/ exists a, r = Ok a /\ k a = Err e.
Proof.
  destruct r as [a|e']; simpl; split.
  - intros H. right. by exists a.
  - intros [[=]|(a' & [= <-] & H)]. done.
  - intros [= ->]. by left.
  - intros [[= ->]|(a' & [=] & _)]. done.
Qed.

(** ** The Window Expander: [each_day] *)

Section EachDay.

Variable tz : Z.

Lemma day_pairs_dates days : (day_pairs days).*1 = date <$> days.
Proof. unfold day_pairs. by rewrite <- list_fmap_compose. Qed.

(** The first loop stores every day when no date comes twice. *)
Lemma index_days_ok days (m : gmap string (Z * Z)) :
  NoDup (date <$> days) -> Forall (fun d => m !! date d = None) days ->
  index_days days m = Ok (list_to_map (day_pairs days) ∪ m).
Proof.
  revert m. induction days as [|d days IH]; intros m Hn Hf.
  { simpl. by rewrite (left_id_L ∅ (∪)). }
  inv Hn. inv Hf. cbn [index_days].
  rewrite bool_decide_eq_true_2 by done. simpl. rewrite IH; [|done|].
  - f_equal. rewrite <- insert_union_l, <- insert_union_r; [done|].
    apply not_elem_of_list_to_map_1. by rewrite day_pairs_dates.
  - apply Forall_forall. intros d' Hd'.
    rewrite lookup_insert_ne.
    + by eapply Forall_forall in H4.
    + intros E. apply H1. rewrite E. by apply list_elem_of_fmap_2.
Qed.

(** It stops at the first date that is already stored. *)
Lemma index_days_dup days (m : gmap string (Z * Z)) :
  ~ (NoDup (date <$> days) /\ Forall (fun d => m !! date d = None) days) ->
  index_days days m = Err (AssertionError DuplicateDayError).
Proof.
  revert m. induction days as [|d days IH]; intros m Hn.
  { exfalso. apply Hn. split; constructor. }
  cbn [index_days].
  destruct (m !! date d) as [p|] eqn:Hd.
  { by rewrite bool_decide_eq_false_2. }
  rewrite bool_decide_eq_true_2 by done. simpl. apply IH.
  intros [Hn' Hf]. apply Hn. split.
  - simpl. constructor; [|done]. intros (d' & E & Hd')%list_elem_of_fmap.
    eapply Forall_forall in Hf; [|done].
    rewrite <- E, lookup_insert_eq in Hf. done.
  - constructor; [done|]. apply Forall_forall. intros d' Hd'.
    eapply Forall_forall in Hf; [|done].
    destruct (decide (date d = date d')) as [E|E].
    + rewrite E, lookup_insert_eq in Hf. done.
    + by rewrite lookup_insert_ne in Hf.
Qed.

Lemma index_days_empty days :
  index_days days ∅ =
    if decide (NoDup (date <$> days))
    then Ok (list_to_map (day_pairs days))
    else Err (AssertionError DuplicateDayError).
Proof.
  assert (Forall (fun d => (∅ : gmap string (Z * Z)) !! date d = None) days)
    by by apply Forall_forall.
  case_decide.
  - rewrite index_days_ok by done. by rewrite (right_id_L ∅ (∪)).
  - apply index_days_dup. by intros [? _].
Qed.

(** The value [each_day] yields for a date string. *)
Lemma lookup_day_present days d :
  NoDup (date <$> days) -> d ∈ days ->
  lookup_day (list_to_map (day_pairs days)) (date d) = (count d, uniques d).
Proof.
  intros Hn Hd. unfold lookup_day.
  erewrite elem_of_list_to_map_1; [done|by rewrite day_pairs_dates|].
  unfold day_pairs. apply list_elem_of_fmap. by exists d.
Qed.

Lemma lookup_day_absent days ymd :
  ymd ∉ date <$> days ->
  lookup_day (list_to_map (day_pairs days)) ymd = zero_pair.
Proof.
  intros Hn. unfold lookup_day.
  rewrite (not_elem_of_list_to_map_1 _ ymd); [done|].
  by rewrite day_pairs_dates.
Qed.

(** The expansion in closed form. *)
Lemma each_day_ok days T W D :
  NoDup (date <$> days) -> fromtimestamp tz T = Ok D ->
  in_range (D - (W - 2)) = true -> in_range (D - 1) = true ->
  each_day tz days T W =
    Ok ((fun d =>
           (strftime d,
            (lookup_day (list_to_map (day_pairs days)) (strftime d)).1,
            (lookup_day (list_to_map (day_pairs days)) (strftime d)).2))
        <$> seqZ (D - (W - 2)) (W - 3)).
Proof.
  intros Hn HD R1 R2. unfold each_day.
  rewrite index_days_empty, decide_True by done. simpl.
  rewrite HD. simpl. unfold date_sub, date_of_days. rewrite R1, R2. simpl.
  rewrite date_range_seqZ. f_equal.
  replace (D - 1 - (D - (W - 2))) with (W - 3) by lia.
  apply list_fmap_ext. intros _ d _. by destruct (lookup_day _ _).
Qed.

Lemma each_day_dup days T W :
  ~ NoDup (date <$> days) ->
  each_day tz days T W = Err (AssertionError DuplicateDayError).
Proof.
  intros Hn. unfold each_day. by rewrite index_days_empty, decide_False.
Qed.

(** The dates yielded do not depend on the sparse list. *)
Lemma each_day_dates days T W obs :
  each_day tz days T W = Ok obs ->
  exists D, fromtimestamp tz T = Ok D
    /\ in_range (D - (W - 2)) = true /\ in_range (D - 1) = true
    /\ NoDup (date <$> days)
    /\ obs_dates obs = strftime <$> seqZ (D - (W - 2)) (W - 3).
Proof.
  intros H.
  destruct (decide (NoDup (date <$> days))) as [Hn|Hn];
    [|by rewrite each_day_dup in H].
  destruct (fromtimestamp tz T) as [D|e] eqn:HD;
    [|unfold each_day in H; rewrite index_days_empty, decide_True, HD in H; done].
  destruct (in_range (D - (W - 2))) eqn:R1;
    [|unfold each_day, date_sub, date_of_days in H;
      rewrite index_days_empty, decide_True, HD in H by done;
      simpl in H; by rewrite R1 in H].
  destruct (in_range (D - 1)) eqn:R2;
    [|unfold each_day, date_sub, date_of_days in H;
      rewrite index_days_empty, decide_True, HD in H by done;
      simpl in H; by rewrite R1, R2 in H].
  exists D. split_and!; try done.
  rewrite (each_day_ok _ _ _ D) in H by done. injection H as <-.
  unfold obs_dates. rewrite <- list_fmap_compose. done.
Qed.


(** C2 (Window Expander span).  When the sparse list has unique dates and
    the window lies in the calendar's range, [each_day] yields one tuple
    per day of [D - (W - 2), D - 1), where [D] is the local date of the
    fetch: the days in chronological order, no date twice and none
    missing, so [W - 3] tuples when [3 <= W]; the fetch day and the day
    before it are not among them. *)
Theorem each_day_span days T W D :
  NoDup (date <$> days) -> fromtimestamp tz T = Ok D ->
  in_range (D - (W - 2)) = true -> in_range (D - 1) = true ->
  exists obs,
    each_day tz days T W = Ok obs
    /\ obs_dates obs = strftime <$> seqZ (D - (W - 2)) (W - 3)
    /\ NoDup (obs_dates obs)
    /\ (3 <= W -> Z.of_nat (length obs) = W - 3)
    /\ (forall d, in_range d = true ->
          (strftime d ∈ obs_dates obs) <-> D - (W - 2) <= d < D - 1)
    /\ (strftime D ∉ obs_dates obs)
    /\ strftime (D - 1) ∉ obs_dates obs.
Proof.
  intros Hn HD R1 R2. eexists. split; [by apply (each_day_ok _ _ _ D)|].
  unfold obs_dates. rewrite <- list_fmap_compose.
  change (_ ∘ _) with strftime.
  assert (Hstop : in_range (D - (W - 2) + (W - 3)) = true)
    by (rewrite <- R2; f_equal; lia).
  assert (Hmem : forall d, in_range d = true ->
            (strftime d ∈ strftime <$> seqZ (D - (W - 2)) (W - 3))
            <-> D - (W - 2) <= d < D - 1).
  { intros d Rd. rewrite list_elem_of_fmap. setoid_rewrite elem_of_seqZ.
    split.
    - intros (d' & E & Hd'). apply strftime_inj in E as ->; [lia|done|].
      apply (in_range_between (D - (W - 2)) (D - 1)); (done || lia).
    - intros Hd. exists d. split; [done|lia]. }
  assert (RD : in_range D = true).
  { unfold fromtimestamp, date_of_days in HD. by case_match; simplify_eq. }
  split_and!.
  - done.
  - by apply strftime_seqZ_NoDup.
  - intros HW. rewrite !length_fmap, length_seqZ. lia.
  - done.
  - rewrite Hmem by done. lia.
  - rewrite Hmem by done. lia.
Qed.


(** C8 (duplicate day).  A sparse list with the same date string at two
    positions makes [each_day] fail on the duplicate-day assertion,
    before anything is yielded; a list with pairwise distinct dates never
    fails on it. *)
Theorem each_day_duplicate_day days T W :
  (forall i j d1 d2, i <> j -> days !! i = Some d1 -> days !! j = Some d2 ->
     date d1 = date d2 ->
     each_day tz days T W = Err (AssertionError DuplicateDayError))
  /\ (NoDup (date <$> days) ->
      each_day tz days T W <> Err (AssertionError DuplicateDayError)).
Proof.
  split.
  - intros i j d1 d2 Hij H1 H2 E. apply each_day_dup.
    intros Hn. apply Hij. eapply NoDup_lookup; [done| |].
    + by rewrite list_lookup_fmap, H1.
    + by rewrite list_lookup_fmap, H2, E.
  - intros Hn. unfold each_day.
    rewrite index_days_empty, decide_True by done. simpl.
    unfold fromtimestamp, date_sub, date_of_days.
    repeat (case_match; simpl; try done).
Qed.

End EachDay.

(** A crawl of 14 November 2023 with one day of clones. *)
Lemma each_day_span_witness :
  exists obs,
    each_day 0 [Day "2023-11-05" 3 2] (1700000000 # 1) 14 = Ok obs
    /\ obs_dates obs = strftime <$> seqZ (19675 - (14 - 2)) (14 - 3)
    /\ NoDup (obs_dates obs)
    /\ (3 <= 14 -> Z.of_nat (length obs) = 14 - 3)
    /\ (forall d, in_range d = true ->
          (strftime d ∈ obs_dates obs) <-> 19675 - (14 - 2) <= d < 19675 - 1)
    /\ (strftime 19675 ∉ obs_dates obs)
    /\ strftime (19675 - 1) ∉ obs_dates obs.
Proof.
  apply (each_day_span 0 [Day "2023-11-05" 3 2] (1700000000 # 1) 14 19675).
  - apply (bool_decide_unpack _). vm_compute. exact I.
  - vm_compute. reflexivity.
  - vm_compute. reflexivity.
  - vm_compute. reflexivity.
Defined.


Lemma each_day_duplicate_day_witness :
  each_day 0 [Day "2023-11-05" 3 2; Day "2023-11-05" 3 2] (1700000000 # 1) 14
    = Err (AssertionError DuplicateDayError)
  /\ each_day 0 [Day "2023-11-05" 3 2; Day "2023-11-06" 1 1]
       (1700000000 # 1) 14 <> Err (AssertionError DuplicateDayError).
Proof.
  split.
  - apply (proj1 (each_day_duplicate_day 0 _ (1700000000 # 1) 14)
             0%nat 1%nat (Day "2023-11-05" 3 2) (Day "2023-11-05" 3 2)).
    + lia.
    + reflexivity.
    + reflexivity.
    + reflexivity.
  - apply (proj2 (each_day_duplicate_day 0 _ (1700000000 # 1) 14)).
    apply (bool_decide_unpack _). vm_compute. exact I.
Defined.

(** ** The Reconciler: [get_daily_stats] *)

Section Reconciler.

Variable tz : Z.

Lemma obs_pairs_dates obs : (obs_pairs obs).*1 = obs_dates obs.
Proof. unfold obs_pairs, obs_dates. by rewrite <- list_fmap_compose. Qed.

Lemma first_observed_lookup obs ymd :
  (list_to_map (obs_pairs obs) : gmap string (Z * Z)) !! ymd
  = first_observed obs ymd.
Proof.
  induction obs as [|[[d c] u] obs IH]; [done|]. simpl.
  case_decide as E.
  - subst. by rewrite lookup_insert_eq.
  - by rewrite lookup_insert_ne.
Qed.

Lemma first_observed_elem obs ymd c u :
  first_observed obs ymd = Some (c, u) -> (ymd, c, u) ∈ obs.
Proof.
  induction obs as [|[[d c'] u'] obs IH]; [done|]. simpl.
  case_decide as E.
  - intros [= <- <-]. subst. left.
  - intros H. right. by apply IH.
Qed.

Lemma first_observed_is_Some obs ymd :
  is_Some (first_observed obs ymd) <-> ymd ∈ obs_dates obs.
Proof.
  rewrite <- first_observed_lookup, <- obs_pairs_dates.
  rewrite <- not_eq_None_Some, <- not_elem_of_list_to_map.
  split; [apply dec_stable|auto].
Qed.

(** Without conflict an observation is the first of its date. *)
Lemma conflict_free_first obs :
  conflict_free obs <->
  Forall (fun o => first_observed obs o.1.1 = Some (o.1.2, o.2)) obs.
Proof.
  rewrite Forall_forall. split.
  - intros Hcf [[d c] u] Ho. simpl.
    assert (is_Some (first_observed obs d)) as [[c' u'] Hf].
    { apply first_observed_is_Some. unfold obs_dates.
      apply list_elem_of_fmap. by exists (d, c, u). }
    rewrite Hf. f_equal. eapply Hcf; [|done].
    by apply first_observed_elem.
  - intros Hf d c1 u1 c2 u2 H1 H2.
    apply Hf in H1, H2. simpl in *. congruence.
Qed.

#[global] Instance conflict_free_dec obs : Decision (conflict_free obs).
Proof.
  refine (cast_if (decide (Forall (fun o =>
            first_observed obs o.1.1 = Some (o.1.2, o.2)) obs)));
    by rewrite conflict_free_first.
Defined.

(** The inner loop: either every tuple agrees with the pair recorded for
    its date, and the dict gains the dates it lacked, or the assertion
    fails. *)
Lemma merge_days_spec obs (m final : gmap string (Z * Z)) :
  final = m ∪ list_to_map (obs_pairs obs) ->
  (Forall (fun o => final !! o.1.1 = Some (o.1.2, o.2)) obs ->
   merge_days obs m = Ok final)
  /\ (~ Forall (fun o => final !! o.1.1 = Some (o.1.2, o.2)) obs ->
      merge_days obs m = Err (AssertionError ReconciliationConflictError)).
Proof.
  revert m. induction obs as [|[[d c] u] obs IH]; intros m Hfinal.
  { simpl in Hfinal. rewrite (right_id_L ∅ (∪)) in Hfinal. subst.
    split; [done|]. intros H. destruct H. constructor. }
  cbn [merge_days]. destruct (m !! d) as [p|] eqn:Hd.
  - assert (Hu : final = m ∪ list_to_map (obs_pairs obs)).
    { rewrite Hfinal. simpl. apply map_eq. intros k.
      destruct (decide (k = d)) as [->|].
      - by rewrite !(lookup_union_Some_l _ _ _ _ Hd).
      - by rewrite !lookup_union, lookup_insert_ne. }
    assert (Hfd : final !! d = Some p)
      by (rewrite Hu; by apply lookup_union_Some_l).
    destruct (IH m Hu) as [IH1 IH2].
    destruct (decide (p = (c, u))) as [->|Hne].
    + rewrite bool_decide_eq_true_2 by done. simpl. split.
      * intros [_ H]%Forall_cons_1. auto.
      * intros H. apply IH2. intros Hf. apply H. by constructor.
    + rewrite bool_decide_eq_false_2 by done. simpl. split; [|done].
      intros [H _]%Forall_cons_1. simpl in H. congruence.
  - assert (Hu : final = <[d := (c, u)]> m ∪ list_to_map (obs_pairs obs)).
    { rewrite Hfinal. simpl. by rewrite <- insert_union_r, insert_union_l. }
    assert (Hfd : final !! d = Some (c, u))
      by (rewrite Hu; apply lookup_union_Some_l, lookup_insert_eq).
    destruct (IH _ Hu) as [IH1 IH2]. split.
    + intros [_ H]%Forall_cons_1. auto.
    + intros H. apply IH2. intros Hf. apply H. by constructor.
Qed.

Lemma merge_days_empty obs :
  merge_days obs ∅ =
    if decide (conflict_free obs)
    then Ok (list_to_map (obs_pairs obs))
    else Err (AssertionError ReconciliationConflictError).
Proof.
  destruct (merge_days_spec obs ∅ (list_to_map (obs_pairs obs))) as [H1 H2].
  { by rewrite (left_id_L ∅ (∪)). }
  setoid_rewrite first_observed_lookup in H1.
  setoid_rewrite first_observed_lookup in H2.
  rewrite <- conflict_free_first in H1, H2.
  case_decide; auto.
Qed.

(** The keys after the inner loop. *)
Lemma merge_days_dom obs (m m' : gmap string (Z * Z)) :
  merge_days obs m = Ok m' ->
  dom m' = dom m ∪ list_to_set (obs_dates obs).
Proof.
  intros H.
  destruct (merge_days_spec obs m _ eq_refl) as [H1 H2].
  destruct (decide (Forall (fun o =>
              (m ∪ list_to_map (obs_pairs obs)) !! o.1.1
              = Some (o.1.2, o.2)) obs)) as [Hf|Hf].
  - rewrite H1 in H by done. injection H as <-.
    by rewrite dom_union_L, dom_list_to_map_L, obs_pairs_dates.
  - rewrite H2 in H by done. done.
Qed.

Lemma merge_days_app obs1 obs2 (m : gmap string (Z * Z)) :
  merge_days (obs1 ++ obs2) m = merge_days obs1 m ≫= merge_days obs2.
Proof.
  revert m. induction obs1 as [|[[d c] u] obs1 IH]; intros m; [done|].
  cbn [merge_days app]. destruct (m !! d) as [p|]; [|apply IH].
  destruct (assert _ _); simpl; [apply IH|done].
Qed.

(** When every crawl expands, the outer loop is the inner loop over the
    expanded windows one after the other. *)
Lemma merge_crawls_expanded objs key W obss (m : gmap string (Z * Z)) :
  expanded_windows tz objs key W = Ok obss ->
  merge_crawls tz objs key W m = merge_days (concat obss) m.
Proof.
  unfold expanded_windows. revert obss m.
  induction objs as [|obj objs IH]; intros obss m H.
  { injection H as <-. done. }
  cbn [mapM] in H. apply bind_Ok in H as (obs & Ho & H).
  apply bind_Ok in H as (obss' & Hos & [= <-]).
  cbn [merge_crawls concat]. rewrite Ho, merge_days_app. simpl.
  destruct (merge_days obs m); simpl; [by apply IH|done].
Qed.

(** A run of the outer loop that ends without exception expanded every
    crawl. *)
Lemma merge_crawls_Ok objs key W (m m' : gmap string (Z * Z)) :
  merge_crawls tz objs key W m = Ok m' ->
  exists obss, expanded_windows tz objs key W = Ok obss.
Proof.
  unfold expanded_windows. revert m.
  induction objs as [|obj objs IH]; intros m H; [by eexists|].
  cbn [merge_crawls] in H. apply bind_Ok in H as (obs & Ho & H).
  apply bind_Ok in H as (m1 & Hm & H).
  apply IH in H as [obss Hos]. exists (obs :: obss).
  cbn [mapM]. rewrite Ho. simpl. by rewrite Hos.
Qed.


Lemma zip_fmap_same {A B C} (f : A -> B) (g : A -> C) (l : list A) :
  zip (f <$> l) (g <$> l) = (fun x => (f x, g x)) <$> l.
Proof. induction l as [|x l IH]; [done|]. csimpl. by f_equal. Qed.

(** The end of [get_daily_stats], from the dict to the three lists. *)
Lemma get_daily_stats_eq objs key W :
  get_daily_stats tz objs key W =
    date2pair ← merge_crawls tz objs key W ∅;
    if decide (date2pair = ∅) then Err ValueError
    else Ok (sorted_keys date2pair,
             (fun ymd => (date2pair !!! ymd).1) <$> sorted_keys date2pair,
             (fun ymd => (date2pair !!! ymd).2) <$> sorted_keys date2pair).
Proof.
  unfold get_daily_stats. destruct (merge_crawls _ _ _ _ _) as [m|e]; [|done].
  simpl. destruct (sorted_keys m) as [|k ks] eqn:Hk.
  - rewrite decide_True; [done|]. apply map_empty. intros i.
    apply eq_None_not_Some. rewrite <- elem_of_sorted_keys, Hk.
    apply not_elem_of_nil.
  - rewrite decide_False.
    + simpl. by rewrite <- !list_fmap_compose.
    + intros ->. assert (k ∈ sorted_keys (∅ : gmap string (Z * Z))) as Hin
        by (rewrite Hk; left).
      apply elem_of_sorted_keys in Hin as [? Hin]. by rewrite lookup_empty in Hin.
Qed.

Lemma get_daily_stats_expanded objs key W obss :
  expanded_windows tz objs key W = Ok obss ->
  get_daily_stats tz objs key W =
    let date2pair : gmap string (Z * Z) :=
      list_to_map (obs_pairs (concat obss)) in
    if decide (conflict_free (concat obss)) then
      if decide (concat obss = []) then Err ValueError
      else Ok (sorted_keys date2pair,
               (fun ymd => (date2pair !!! ymd).1) <$> sorted_keys date2pair,
               (fun ymd => (date2pair !!! ymd).2) <$> sorted_keys date2pair)
    else Err (AssertionError ReconciliationConflictError).
Proof.
  intros H. rewrite get_daily_stats_eq, (merge_crawls_expanded _ _ _ obss) by done.
  rewrite merge_days_empty. simpl. case_decide; [|done]. simpl.
  destruct (concat obss) as [|[[d c] u] obs] eqn:E.
  - simpl. by rewrite !decide_True.
  - rewrite !decide_False; [done..|]. simpl. intros Hm.
    apply (f_equal (fun m : gmap string (Z * Z) => m !! d)) in Hm.
    by rewrite lookup_insert_eq, lookup_empty in Hm.
Qed.

(** C1 (merge rule).  When every crawl expands: if no two observations of
    a date differ (and there is an observation), [get_daily_stats]
    returns the dates observed, sorted, each once, each with the first
    pair observed for it; if some observation differs from the first one
    of its date, [get_daily_stats] fails on the conflict assertion. *)
Theorem get_daily_stats_merge_rule objs key W obss :
  expanded_windows tz objs key W = Ok obss ->
  (conflict_free (concat obss) -> concat obss <> [] ->
   exists dates counts uniques,
     get_daily_stats tz objs key W = Ok (dates, counts, uniques)
     /\ Sorted str_le dates /\ NoDup dates
     /\ (forall ymd, ymd ∈ dates <-> ymd ∈ obs_dates (concat obss))
     /\ length counts = length dates /\ length uniques = length dates
     /\ first_observed (concat obss) <$> dates
        = Some <$> zip counts uniques)
  /\ (forall ymd c u,
        (ymd, c, u) ∈ concat obss ->
        first_observed (concat obss) ymd <> Some (c, u) ->
        get_daily_stats tz objs key W
        = Err (AssertionError ReconciliationConflictError)).
Proof.
  intros H. rewrite (get_daily_stats_expanded _ _ _ obss) by done.
  set (obs := concat obss). simpl. split.
  - intros Hcf Hne. rewrite !decide_True, decide_False by done.
    set (m := list_to_map (obs_pairs obs) : gmap string (Z * Z)).
    eexists _, _, _. split; [done|].
    split_and!.
    + apply sorted_keys_sorted.
    + apply NoDup_sorted_keys.
    + intros ymd. rewrite elem_of_sorted_keys. unfold m.
      rewrite first_observed_lookup. apply first_observed_is_Some.
    + by rewrite length_fmap.
    + by rewrite length_fmap.
    + rewrite zip_fmap_same, <- list_fmap_compose.
      apply Forall_fmap_ext_1, Forall_forall. intros ymd Hin. simpl.
      apply elem_of_sorted_keys in Hin as [p Hp].
      rewrite <- first_observed_lookup. fold m.
      rewrite lookup_total_alt, Hp. simpl. by destruct p.
  - intros ymd c u Hin Hfirst. rewrite decide_False; [done|].
    intros Hcf%conflict_free_first.
    eapply Forall_forall in Hcf; [|done]. done.
Qed.


(** *** The order of the crawls *)

Lemma elem_of_concat {A} (ls : list (list A)) x :
  x ∈ concat ls <-> exists l, l ∈ ls /\ x ∈ l.
Proof.
  rewrite list_elem_of_In, in_concat. setoid_rewrite list_elem_of_In.
  naive_solver.
Qed.

Lemma expanded_windows_Forall2 objs key W obss :
  expanded_windows tz objs key W = Ok obss <->
  Forall2 (fun obj obs =>
             each_day tz (daily (get_traffic key obj)) (time obj) W = Ok obs)
          objs obss.
Proof.
  unfold expanded_windows. revert obss.
  induction objs as [|obj objs IH]; intros obss.
  { simpl. split; [by intros [= <-]; constructor|by intros ->%Forall2_nil_inv_l]. }
  cbn [mapM]. rewrite bind_Ok. split.
  - intros (obs & Ho & H). apply bind_Ok in H as (obss' & Hos & [= <-]).
    constructor; [done|]. by apply IH.
  - intros (obs & obss' & Ho & Hos & ->)%Forall2_cons_inv_l.
    exists obs. split; [done|]. apply IH in Hos. by rewrite Hos.
Qed.

(** Crawls in another order expand to the same windows in that order. *)
Lemma expanded_windows_perm objs objs' key W obss :
  expanded_windows tz objs key W = Ok obss -> objs ≡ₚ objs' ->
  exists obss', expanded_windows tz objs' key W = Ok obss'
    /\ forall o, o ∈ concat obss' <-> o ∈ concat obss.
Proof.
  intros H Hp. revert obss H.
  induction Hp as [|x l l' Hp IH|x y l|l l' l'' Hp1 IH1 Hp2 IH2];
    intros obss H.
  - by exists obss.
  - apply expanded_windows_Forall2 in H.
    apply Forall2_cons_inv_l in H as (obs & obss0 & Ho & Hos & ->).
    apply expanded_windows_Forall2, IH in Hos as (obss' & Hos' & Hmem).
    exists (obs :: obss'). split.
    + apply expanded_windows_Forall2. constructor; [done|].
      by apply expanded_windows_Forall2.
    + intros o. simpl. rewrite !elem_of_app, Hmem. done.
  - apply expanded_windows_Forall2 in H.
    apply Forall2_cons_inv_l in H as (obs1 & obss0 & Ho1 & H & ->).
    apply Forall2_cons_inv_l in H as (obs2 & obss1 & Ho2 & H & ->).
    exists (obs2 :: obs1 :: obss1). split.
    + apply expanded_windows_Forall2. by repeat constructor.
    + intros o. simpl. rewrite !elem_of_app. tauto.
  - apply IH1 in H as (obss1 & H1 & Hm1).
    apply IH2 in H1 as (obss2 & H2 & Hm2).
    exists obss2. split; [done|]. intros o. by rewrite Hm2, Hm1.
Qed.

(** Without conflict, the reconciled dict is determined by the set of
    observations. *)
Lemma reconciled_ext obs obs' :
  conflict_free obs -> (forall o, o ∈ obs' <-> o ∈ obs) ->
  conflict_free obs'
  /\ (list_to_map (obs_pairs obs') : gmap string (Z * Z))
     = list_to_map (obs_pairs obs).
Proof.
  intros Hcf Hmem.
  assert (Hcf' : conflict_free obs').
  { intros ymd c1 u1 c2 u2 H1%Hmem H2%Hmem. by eapply Hcf. }
  split; [done|]. apply map_eq. intros ymd.
  rewrite !first_observed_lookup.
  destruct (first_observed obs ymd) as [[c u]|] eqn:E.
  - apply first_observed_elem, Hmem in E.
    apply conflict_free_first in Hcf'.
    eapply Forall_forall in Hcf'; [|done]. done.
  - apply eq_None_not_Some. rewrite first_observed_is_Some.
    apply eq_None_not_Some in E. rewrite first_observed_is_Some in E.
    intros Hin. apply E. unfold obs_dates in *.
    apply list_elem_of_fmap in Hin as (o & -> & Ho).
    apply list_elem_of_fmap. exists o. split; [done|]. by apply Hmem.
Qed.

Lemma get_daily_stats_perm objs objs' key W obss :
  expanded_windows tz objs key W = Ok obss ->
  conflict_free (concat obss) -> objs ≡ₚ objs' ->
  get_daily_stats tz objs' key W = get_daily_stats tz objs key W.
Proof.
  intros H Hcf Hp.
  destruct (expanded_windows_perm _ _ _ _ _ H Hp) as (obss' & H' & Hmem).
  destruct (reconciled_ext _ _ Hcf Hmem) as [Hcf' Heq].
  rewrite (get_daily_stats_expanded objs _ _ obss) by done.
  rewrite (get_daily_stats_expanded objs' _ _ obss') by done.
  simpl. rewrite Heq.
  rewrite (decide_True (P := conflict_free (concat obss))) by done.
  rewrite (decide_True (P := conflict_free (concat obss'))) by done.
  destruct (decide (concat obss = [])) as [E|E].
  - rewrite decide_True; [done|]. destruct (concat obss') as [|o l]; [done|].
    assert (o ∈ concat obss) as Hin by (apply Hmem; left).
    rewrite E in Hin. by apply not_elem_of_nil in Hin.
  - rewrite decide_False; [done|]. intros E'.
    destruct (concat obss) as [|o l]; [done|].
    assert (o ∈ concat obss') as Hin by (apply Hmem; left).
    rewrite E' in Hin. by apply not_elem_of_nil in Hin.
Qed.

(** When the observations are those of a list with sorted, distinct
    dates, the result is that list, column by column. *)
Lemma get_daily_stats_sorted objs key W obss l :
  expanded_windows tz objs key W = Ok obss ->
  conflict_free (concat obss) ->
  (forall o, o ∈ concat obss <-> o ∈ l) ->
  Sorted str_le (obs_dates l) -> NoDup (obs_dates l) -> l <> [] ->
  get_daily_stats tz objs key W
  = Ok (obs_dates l, (fun o => o.1.2) <$> l, (fun o => o.2) <$> l).
Proof.
  intros H Hcf Hmem Hs Hn Hne.
  rewrite (get_daily_stats_expanded _ _ _ obss) by done. simpl.
  rewrite (decide_True (P := conflict_free (concat obss))) by done.
  rewrite decide_False.
  2:{ intros E. destruct l as [|o l]; [done|].
      assert (o ∈ concat obss) as Hin by (apply Hmem; left).
      rewrite E in Hin. by apply not_elem_of_nil in Hin. }
  set (m := list_to_map (obs_pairs (concat obss)) : gmap string (Z * Z)).
  assert (Hm : forall o, o ∈ l -> m !! o.1.1 = Some (o.1.2, o.2)).
  { intros o Ho%Hmem. unfold m. rewrite first_observed_lookup.
    apply conflict_free_first in Hcf. by eapply Forall_forall in Hcf. }
  assert (Hk : sorted_keys m = obs_dates l).
  { apply sorted_keys_unique; [done..|]. intros k. unfold m.
    rewrite first_observed_lookup, first_observed_is_Some.
    unfold obs_dates. rewrite !list_elem_of_fmap.
    split; intros (o & -> & Ho); exists o; (split; [done|]); by apply Hmem. }
  rewrite Hk. unfold obs_dates. rewrite <- !list_fmap_compose.
  do 2 f_equal; [f_equal|]; apply Forall_fmap_ext_1, Forall_forall;
    intros o Ho; simpl; by rewrite lookup_total_alt, Hm.
Qed.

(** The tuples of one expanded window: sorted distinct dates, one pair
    per date. *)
Lemma each_day_sorted_obs days T W obs :
  each_day tz days T W = Ok obs ->
  Sorted str_le (obs_dates obs) /\ NoDup (obs_dates obs)
  /\ conflict_free obs.
Proof.
  intros H.
  destruct (each_day_dates _ _ _ _ _ H) as (D & HD & R1 & R2 & Hn & Hd).
  assert (Hstop : in_range (D - (W - 2) + (W - 3)) = true)
    by (rewrite <- R2; f_equal; lia).
  rewrite Hd. split_and!.
  - by apply strftime_seqZ_sorted.
  - by apply strftime_seqZ_NoDup.
  - rewrite (each_day_ok _ _ _ _ D) in H by done. injection H as <-.
    intros ymd c1 u1 c2 u2.
    intros (z1 & H1 & _)%list_elem_of_fmap (z2 & H2 & _)%list_elem_of_fmap.
    revert H1 H2. generalize (strftime z1), (strftime z2).
    intros s1 s2 H1 H2. by simplify_eq.
Qed.

(** C4 (order of the crawls).  When every crawl expands and no two
    observations of a date differ, [get_daily_stats] returns the same on
    every permutation of the crawls; and a crawl reconciled with a second
    copy of itself, like the crawl alone, gives back its expanded window
    (dates, counts and uniques). *)
Theorem get_daily_stats_order_insensitive key W :
  (forall objs objs' obss,
     expanded_windows tz objs key W = Ok obss ->
     conflict_free (concat obss) -> objs ≡ₚ objs' ->
     get_daily_stats tz objs' key W = get_daily_stats tz objs key W)
  /\ (forall obj obs,
        each_day tz (daily (get_traffic key obj)) (time obj) W = Ok obs ->
        obs <> [] ->
        get_daily_stats tz [obj; obj] key W
        = Ok (obs_dates obs, (fun o => o.1.2) <$> obs, (fun o => o.2) <$> obs)
        /\ get_daily_stats tz [obj] key W
           = Ok (obs_dates obs, (fun o => o.1.2) <$> obs,
                 (fun o => o.2) <$> obs)).
Proof.
  split; [intros objs objs' obss; apply get_daily_stats_perm|].
  intros obj obs H Hne.
  destruct (each_day_sorted_obs _ _ _ _ H) as (Hs & Hn & Hcf).
  split.
  - apply (get_daily_stats_sorted _ _ _ [obs; obs]); try done.
    + apply expanded_windows_Forall2. by repeat constructor.
    + simpl. rewrite (right_id_L [] (++)).
      intros ymd c1 u1 c2 u2 [?|?]%elem_of_app [?|?]%elem_of_app;
        by eapply Hcf.
    + intros o. simpl. rewrite !elem_of_app, elem_of_nil. tauto.
  - apply (get_daily_stats_sorted _ _ _ [obs]); try done.
    + apply expanded_windows_Forall2. by repeat constructor.
    + simpl. by rewrite (right_id_L [] (++)).
    + intros o. simpl. by rewrite (right_id_L [] (++)).
Qed.

(** *** The two metrics *)

(** The dates of the expanded windows do not depend on the metric. *)
Lemma expanded_windows_dates objs k1 k2 W obss1 obss2 :
  expanded_windows tz objs k1 W = Ok obss1 ->
  expanded_windows tz objs k2 W = Ok obss2 ->
  obs_dates (concat obss1) = obs_dates (concat obss2).
Proof.
  rewrite !expanded_windows_Forall2. intros H1. revert obss2.
  induction H1 as [|obj obs1 objs obss1 Ho1 H1 IH]; intros obss2 H2.
  { by apply Forall2_nil_inv_l in H2 as ->. }
  apply Forall2_cons_inv_l in H2 as (obs2 & obss2' & Ho2 & H2 & ->).
  simpl. unfold obs_dates in *. rewrite !fmap_app. f_equal; [|by apply IH].
  destruct (each_day_dates _ _ _ _ _ Ho1) as (D1 & HD1 & _ & _ & _ & E1).
  destruct (each_day_dates _ _ _ _ _ Ho2) as (D2 & HD2 & _ & _ & _ & E2).
  unfold obs_dates in *. rewrite E1, E2. congruence.
Qed.

Lemma get_daily_stats_dates objs key W dates counts uniques :
  get_daily_stats tz objs key W = Ok (dates, counts, uniques) ->
  exists obss (m : gmap string (Z * Z)),
    expanded_windows tz objs key W = Ok obss
    /\ dom m = list_to_set (obs_dates (concat obss))
    /\ dates = sorted_keys m.
Proof.
  rewrite get_daily_stats_eq. intros (m & Hm & H)%bind_Ok.
  case_decide; [done|]. injection H as <- <- <-.
  destruct (merge_crawls_Ok _ _ _ _ _ Hm) as [obss Hos].
  exists obss, m. split_and!; [done| |done].
  rewrite (merge_crawls_expanded _ _ _ obss) in Hm by done.
  apply merge_days_dom in Hm. by rewrite Hm, dom_empty_L, (left_id_L ∅ (∪)).
Qed.

End Reconciler.

Import Examples.

(** Two crawls that agree, and two that do not. *)
Lemma get_daily_stats_merge_rule_witness :
  (exists obss,
     expanded_windows 0 [crawl1; crawl2] Clones 14 = Ok obss
     /\ conflict_free (concat obss) /\ concat obss <> []
     /\ exists dates counts uniques,
          get_daily_stats 0 [crawl1; crawl2] Clones 14
          = Ok (dates, counts, uniques)
          /\ Sorted str_le dates /\ NoDup dates
          /\ (forall ymd, ymd ∈ dates <-> ymd ∈ obs_dates (concat obss))
          /\ length counts = length dates /\ length uniques = length dates
          /\ first_observed (concat obss) <$> dates
             = Some <$> zip counts uniques)
  /\ get_daily_stats 0 [crawl1; crawl3] Clones 14
     = Err (AssertionError ReconciliationConflictError).
Proof.
  split.
  - eexists. split; [vm_compute; reflexivity|].
    match goal with |- ?P /\ ?Q /\ _ =>
      assert (Hcf : P) by (apply (bool_decide_unpack _); vm_compute; exact I);
      assert (Hne : Q) by discriminate
    end.
    split_and!; [done..|].
    exact (proj1 (get_daily_stats_merge_rule 0 [crawl1; crawl2] Clones 14 _
                    ltac:(vm_compute; reflexivity)) Hcf Hne).
  - apply (proj2 (get_daily_stats_merge_rule 0 [crawl1; crawl3] Clones 14 _
                    ltac:(vm_compute; reflexivity)) "2023-11-05" 4 2).
    + apply (bool_decide_unpack _). vm_compute. exact I.
    + vm_compute. discriminate.
Defined.

Lemma get_daily_stats_order_insensitive_witness :
  get_daily_stats 0 [crawl2; crawl1] Clones 14
  = get_daily_stats 0 [crawl1; crawl2] Clones 14
  /\ exists obs,
       each_day 0 (daily (clones crawl1)) (time crawl1) 14 = Ok obs
       /\ get_daily_stats 0 [crawl1; crawl1] Clones 14
          = Ok (obs_dates obs, (fun o => o.1.2) <$> obs, (fun o => o.2) <$> obs)
       /\ get_daily_stats 0 [crawl1] Clones 14
          = Ok (obs_dates obs, (fun o => o.1.2) <$> obs, (fun o => o.2) <$> obs).
Proof.
  split.
  - apply (proj1 (get_daily_stats_order_insensitive 0 Clones 14)
             [crawl1; crawl2] [crawl2; crawl1] _ ltac:(vm_compute; reflexivity)).
    + apply (bool_decide_unpack _). vm_compute. exact I.
    + apply perm_swap.
  - eexists. split; [vm_compute; reflexivity|].
    apply (proj2 (get_daily_stats_order_insensitive 0 Clones 14) crawl1).
    + vm_compute. reflexivity.
    + discriminate.
Defined.

(** ** The Repository Processor and the batch *)

Section BatchFacts.

Variable tz : Z.

Lemma times_eqb_refl l : times_eqb l l = true.
Proof.
  induction l as [|x l IH]; [done|]. simpl.
  rewrite IH, andb_true_r. apply Qeq_bool_iff. reflexivity.
Qed.

(** The exceptions each step can raise. *)
Lemma each_day_Err days T W e :
  each_day tz days T W = Err e ->
  e = AssertionError DuplicateDayError \/ e = OverflowError.
Proof.
  unfold each_day. rewrite index_days_empty.
  case_decide; simpl; [|intros [= <-]; by left].
  unfold fromtimestamp, date_sub, date_of_days.
  repeat (case_match; simpl; try done); intros [= <-]; by right.
Qed.

Lemma merge_days_Err obs (m : gmap string (Z * Z)) e :
  merge_days obs m = Err e ->
  e = AssertionError ReconciliationConflictError.
Proof.
  destruct (merge_days_spec obs m _ eq_refl) as [H1 H2].
  destruct (decide (Forall (fun o =>
              (m ∪ list_to_map (obs_pairs obs)) !! o.1.1
              = Some (o.1.2, o.2)) obs)) as [Hf|Hf].
  - by rewrite H1.
  - rewrite H2 by done. by intros [= <-].
Qed.

Lemma merge_crawls_Err objs key W (m : gmap string (Z * Z)) e :
  merge_crawls tz objs key W m = Err e ->
  e = AssertionError DuplicateDayError \/ e = OverflowError
  \/ e = AssertionError ReconciliationConflictError.
Proof.
  revert m. induction objs as [|obj objs IH]; intros m; [done|].
  cbn [merge_crawls]. intros [H|(obs & _ & H)]%bind_Err.
  { apply each_day_Err in H. tauto. }
  apply bind_Err in H as [H|(m' & _ & H)].
  { apply merge_days_Err in H. tauto. }
  by eapply IH.
Qed.

Lemma get_daily_stats_Err objs key W e :
  get_daily_stats tz objs key W = Err e ->
  e = AssertionError DuplicateDayError \/ e = OverflowError
  \/ e = AssertionError ReconciliationConflictError \/ e = ValueError.
Proof.
  rewrite get_daily_stats_eq. intros [H|(m & _ & H)]%bind_Err.
  { apply merge_crawls_Err in H. tauto. }
  case_decide; [|done]. injection H as <-. tauto.
Qed.

Lemma mapM_noon_Err dates e :
  mapM (noon_time_from_date tz) dates = Err e -> e = ValueError.
Proof.
  induction dates as [|d dates IH]; [done|]. cbn [mapM].
  intros [H|(t & _ & H)]%bind_Err.
  - unfold noon_time_from_date in H.
    apply bind_Err in H as [H|(z & _ & H)]; [|done].
    unfold strptime in H. repeat (case_match; try done); by injection H.
  - apply bind_Err in H as [H|(ts & _ & H)]; [by apply IH|done].
Qed.

(** The two metrics give the same dates. *)
Lemma get_daily_stats_same_dates objs W dates clones cloners dates2 views
    viewers :
  get_daily_stats tz objs Clones W = Ok (dates, clones, cloners) ->
  get_daily_stats tz objs Views W = Ok (dates2, views, viewers) ->
  dates = dates2.
Proof.
  intros H1 H2.
  apply get_daily_stats_dates in H1 as (obss1 & m1 & He1 & Hm1 & ->).
  apply get_daily_stats_dates in H2 as (obss2 & m2 & He2 & Hm2 & ->).
  apply sorted_keys_dom. rewrite Hm1, Hm2.
  by rewrite (expanded_windows_dates _ _ _ _ _ _ _ He1 He2).
Qed.

(** Every date of an expanded window is the string of a day in range. *)
Lemma expanded_windows_in_range objs key W obss ymd :
  expanded_windows tz objs key W = Ok obss ->
  ymd ∈ obs_dates (concat obss) ->
  exists z, in_range z = true /\ ymd = strftime z.
Proof.
  rewrite expanded_windows_Forall2. intros Hf. unfold obs_dates.
  intros (o & -> & (obs & Hobs & Ho)%elem_of_concat)%list_elem_of_fmap.
  apply list_elem_of_lookup in Hobs as [i Hi].
  destruct (Forall2_lookup_r _ _ _ _ _ Hf Hi) as (obj & _ & Hday).
  destruct (each_day_dates _ _ _ _ _ Hday) as (D & _ & R1 & R2 & _ & Hd).
  assert (o.1.1 ∈ obs_dates obs) as Hin.
  { unfold obs_dates. apply list_elem_of_fmap. by exists o. }
  rewrite Hd in Hin.
  apply list_elem_of_fmap in Hin as (z & -> & Hz%elem_of_seqZ).
  exists z. split; [|done].
  apply (in_range_between (D - (W - 2)) (D - 1)); [done..|lia].
Qed.

Lemma noon_time_from_date_strftime z :
  in_range z = true ->
  noon_time_from_date tz (strftime z)
  = Ok (mktime tz z + inject_Z (12 * 60 * 60))%Q.
Proof.
  intros R. unfold noon_time_from_date. by rewrite strptime_strftime.
Qed.



(** C10 (the two metrics cover the same dates).  Whenever
    [get_daily_stats] succeeds for the clones and for the views of the
    same crawls, the two lists of dates are equal; so [process_repo]
    never fails on the assertion that compares them. *)
Theorem daily_dates_agree objs :
  (forall W dates clones cloners dates2 views viewers,
     get_daily_stats tz objs Clones W = Ok (dates, clones, cloners) ->
     get_daily_stats tz objs Views W = Ok (dates2, views, viewers) ->
     dates = dates2)
  /\ (forall repo,
       process_repo_obj tz repo objs
       <> Err (AssertionError MetricAlignmentError))
  /\ (forall repo proc_file dir,
       (process_repo tz repo objs proc_file dir).2
       <> Err (AssertionError MetricAlignmentError)).
Proof.
  assert (Hp : forall repo,
    process_repo_obj tz repo objs
    <> Err (AssertionError MetricAlignmentError)).
  { intros repo. unfold process_repo_obj.
    intros [H|([[d1 c1] u1] & H1 & H)]%bind_Err.
    { apply get_daily_stats_Err in H as [H|[H|[H|H]]]; discriminate. }
    apply bind_Err in H as [H|([[d2 c2] u2] & H2 & H)].
    { apply get_daily_stats_Err in H as [H|[H|[H|H]]]; discriminate. }
    rewrite (get_daily_stats_same_dates _ _ _ _ _ _ _ _ H1 H2) in H.
    rewrite bool_decide_eq_true_2 in H by done. simpl in H.
    apply bind_Err in H as [H|(ts & _ & H)].
    { by apply mapM_noon_Err in H. }
    rewrite times_eqb_refl in H. done. }
  split; [apply get_daily_stats_same_dates|]. split; [exact Hp|].
  intros repo proc_file dir. unfold process_repo.
  specialize (Hp repo).
  destruct (process_repo_obj tz repo objs); simpl; [discriminate|].
  intros [= ->]. by apply Hp.
Qed.

(** C6, as the code has it (point series).  The point series of a
    processed record has one entry per crawl, in the order of the crawls
    in the raw log, with the time and the three counters of that crawl;
    nothing is merged or dropped.  It is sorted by time when the crawls
    are. *)
Theorem point_series_in_log_order repo objs rec :
  process_repo_obj tz repo objs = Ok rec ->
  point_times (proc_point rec) = time <$> objs
  /\ point_stars (proc_point rec) = stars <$> objs
  /\ point_forks (proc_point rec) = forks <$> objs
  /\ point_watchers (proc_point rec) = watchers <$> objs
  /\ (Sorted q_le (time <$> objs) ->
      Sorted q_le (point_times (proc_point rec))).
Proof.
  unfold process_repo_obj. intros H.
  apply bind_Ok in H as ([[d1 c1] u1] & _ & H).
  apply bind_Ok in H as ([[d2 c2] u2] & _ & H).
  apply bind_Ok in H as ([] & _ & H).
  apply bind_Ok in H as (ts & _ & H). simpl in H.
  apply bind_Ok in H as ([] & _ & H). by injection H as <-.
Qed.

(** *** The batch *)






End BatchFacts.

Lemma daily_dates_agree_witness :
  exists dates clones cloners views viewers,
    get_daily_stats 0 [crawl1; crawl2] Clones 14 = Ok (dates, clones, cloners)
    /\ get_daily_stats 0 [crawl1; crawl2] Views 14 = Ok (dates, views, viewers).
Proof.
  pose proof (proj1 (daily_dates_agree 0 [crawl1; crawl2]) 14) as T.
  destruct (get_daily_stats 0 [crawl1; crawl2] Clones 14)
    as [[[d1 c1] u1]|] eqn:H1; [|vm_compute in H1; discriminate].
  destruct (get_daily_stats 0 [crawl1; crawl2] Views 14)
    as [[[d2 c2] u2]|] eqn:H2; [|vm_compute in H2; discriminate].
  exists d1, c1, u1, c2, u2. split; [reflexivity|].
  by rewrite (T d1 c1 u1 d2 c2 u2 eq_refl eq_refl).
Defined.

(** Two crawls listed in the raw log with the later one first. *)
Lemma point_series_unsorted :
  exists rec,
    process_repo_obj 0 "acme/widget" [crawl2; crawl1] = Ok rec
    /\ ~ Sorted q_le (point_times (proc_point rec)).
Proof.
  eexists. split; [vm_compute; reflexivity|].
  intros H. apply (bool_decide_pack _) in H. vm_compute in H. exact H.
Qed.

Lemma point_series_in_log_order_witness :
  exists rec,
    process_repo_obj 0 "acme/widget" [crawl1; crawl2] = Ok rec
    /\ point_times (proc_point rec) = time <$> [crawl1; crawl2]
    /\ point_stars (proc_point rec) = stars <$> [crawl1; crawl2]
    /\ point_forks (proc_point rec) = forks <$> [crawl1; crawl2]
    /\ point_watchers (proc_point rec) = watchers <$> [crawl1; crawl2]
    /\ (Sorted q_le (time <$> [crawl1; crawl2]) ->
        Sorted q_le (point_times (proc_point rec))).
Proof.
  eexists. split; [vm_compute; reflexivity|].
  apply (point_series_in_log_order 0 "acme/widget" [crawl1; crawl2]).
  vm_compute. reflexivity.
Defined.




(** ** The Window Invariant Verifier *)

Section Verifier.
Import VerifyWindow.

Variable tz : Z.

#[global] Instance q_le_trans : Transitive q_le.
Proof.
  intros x y z. unfold q_le. rewrite !Qle_bool_iff. apply Qle_trans.
Qed.

#[global] Instance q_le_total : Total q_le.
Proof.
  intros x y. unfold q_le. rewrite !Qle_bool_iff.
  destruct (Qlt_le_dec x y) as [H|H]; [left; by apply Qlt_le_weak|by right].
Qed.

Lemma q_le_refl x : q_le x x.
Proof. unfold q_le. rewrite Qle_bool_iff. apply Qle_refl. Qed.

(** The first and the last element of a sorted list bound the others. *)
Lemma sorted_head_le (s : list Q) lo x :
  StronglySorted q_le s -> head s = Some lo -> x ∈ s -> q_le lo x.
Proof.
  intros Hs Hh Hx. destruct s as [|y s]; [done|]. injection Hh as ->.
  apply StronglySorted_inv in Hs as [_ Hall].
  apply elem_of_cons in Hx as [->|Hx]; [apply q_le_refl|].
  by eapply Forall_forall in Hall.
Qed.

Lemma sorted_le_last (s : list Q) hi x :
  StronglySorted q_le s -> last s = Some hi -> x ∈ s -> q_le x hi.
Proof.
  induction s as [|y s IH]; intros Hs Hl Hx; [done|].
  apply StronglySorted_inv in Hs as [Hs Hall].
  destruct s as [|y' s].
  { injection Hl as ->. apply list_elem_of_singleton in Hx as ->.
    apply q_le_refl. }
  change (last (y' :: s) = Some hi) in Hl.
  apply elem_of_cons in Hx as [->|Hx]; [|by apply IH].
  eapply Forall_forall in Hall; [done|].
  by apply last_Some_elem_of.
Qed.


Lemma Qmin_mktime z1 z2 :
  Qmin (mktime tz z1) (mktime tz z2) = mktime tz (Z.min z1 z2).
Proof.
  unfold Qmin, GenericMinMax.gmin, Qcompare, mktime, inject_Z. simpl.
  rewrite !Z.mul_1_r.
  destruct (Z.compare_spec (86400 * z1 - tz) (86400 * z2 - tz)).
  - by rewrite Z.min_l by lia.
  - by rewrite Z.min_l by lia.
  - by rewrite Z.min_r by lia.
Qed.

Lemma first_then_day days :
  first_then tz days =
    match first_day days with
    | Some z => Ok (mktime tz z)
    | None => match days with
              | [] => Err IndexError
              | _ => Err ValueError
              end
    end.
Proof.
  destruct days as [|d days]; [done|]. simpl.
  destruct (strptime (date d)) as [z|e] eqn:E; [done|]. simpl.
  unfold strptime in E. repeat (case_match; try done); by injection E as <-.
Qed.

(** One iteration computes the gap of the crawl, in seconds. *)
Lemma gap_of_days obj g :
  gap_days tz obj = Some g ->
  exists secs, gap_of tz obj = Ok secs
    /\ g = (secs / inject_Z sec_per_day)%Q.
Proof.
  unfold gap_days, gap_of. rewrite !first_then_day.
  destruct (first_day (daily (clones obj))) as [z1|]; [|done].
  destruct (first_day (daily (views obj))) as [z2|]; [|done].
  simpl. intros [= <-]. eexists. split; [done|].
  by rewrite Qmin_mktime.
Qed.

Lemma mapM_gap_of objs :
  Forall (fun obj => is_Some (gap_days tz obj)) objs ->
  exists gaps,
    mapM (gap_of tz) objs = Ok gaps
    /\ Forall2 (fun obj secs =>
                  gap_days tz obj = Some (secs / inject_Z sec_per_day)%Q)
         objs gaps.
Proof.
  induction 1 as [|obj objs [g Hg] _ (gaps & Hm & Hf)].
  { exists []. by split; [|constructor]. }
  destruct (gap_of_days _ _ Hg) as (secs & Hs & ->).
  exists (secs :: gaps). split; [|by constructor].
  cbn [mapM]. rewrite Hs. simpl. by rewrite Hm.
Qed.

(** What [main] returns once the loop has collected the gaps. *)
Lemma main_result objs gaps lo hi :
  mapM (gap_of tz) objs = Ok gaps ->
  let days := merge_sort q_le
                ((fun gap => gap / inject_Z sec_per_day)%Q <$> gaps) in
  head days = Some lo -> last days = Some hi ->
  (main tz objs).2 =
    if Qle_bool 0 lo then
      if Qle_bool (inject_Z two_weeks) hi
      then Err (AssertionError GapTooLongError) else Ok tt
    else Err (AssertionError GapNegativeError).
Proof.
  intros Hm days Hlo Hhi. unfold main. rewrite Hm. simpl.
  fold days. rewrite Hlo, Hhi. simpl.
  destruct (Qle_bool 0 lo); [|done]. simpl.
  by destruct (Qle_bool (inject_Z two_weeks) hi).
Qed.

(** C7, as the code has it (window check).  On a raw log with at least
    one crawl, in which the clones and the views list of every crawl
    start with a date that parses, [main] succeeds exactly when the gap
    of every crawl, from the start of the earlier of its two first days
    to its fetch time, is at least 0 and less than 14 days; otherwise it
    fails on one of its two assertions. *)
Theorem main_checks_window objs :
  objs <> [] ->
  Forall (fun obj => is_Some (gap_days tz obj)) objs ->
  ((main tz objs).2 = Ok tt <->
   Forall (fun obj => exists g,
             gap_days tz obj = Some g /\ gap_in_window g) objs)
  /\ (~ Forall (fun obj => exists g,
                  gap_days tz obj = Some g /\ gap_in_window g) objs ->
      (main tz objs).2 = Err (AssertionError GapNegativeError)
      \/ (main tz objs).2 = Err (AssertionError GapTooLongError)).
Proof.
  intros Hne Hall.
  destruct (mapM_gap_of objs Hall) as (gaps & Hm & Hf).
  set (l := (fun gap => gap / inject_Z sec_per_day)%Q <$> gaps).
  set (days := merge_sort q_le l).
  assert (Hperm : days ≡ₚ l) by apply (merge_sort_Permutation q_le).
  assert (Hss : StronglySorted q_le days)
    by apply (StronglySorted_merge_sort q_le).
  assert (Hf' : Forall2 (fun obj x => gap_days tz obj = Some x) objs l).
  { unfold l. apply Forall2_fmap_r. done. }
  assert (Hlne : days <> []).
  { intros E. rewrite E in Hperm. symmetry in Hperm.
    apply Permutation_nil_r in Hperm. rewrite Hperm in Hf'.
    apply Forall2_nil_inv_r in Hf'. done. }
  destruct (head days) as [lo|] eqn:Hlo;
    [|by destruct days].
  destruct (last days) as [hi|] eqn:Hhi;
    [|by apply last_None in Hhi].
  rewrite (main_result objs gaps lo hi Hm Hlo Hhi).
  assert (Hiff : Forall (fun obj => exists g,
                   gap_days tz obj = Some g /\ gap_in_window g) objs
                 <-> Forall gap_in_window days).
  { rewrite Hperm. clear -Hf'. induction Hf' as [|obj x objs l Hx _ IH].
    - split; constructor.
    - rewrite !Forall_cons, IH. split; intros [H1 H2]; (split; [|done]).
      + destruct H1 as (g & Hg & Hw). congruence.
      + by exists x. }
  assert (Hres : Qle_bool 0 lo = true
                 /\ Qle_bool (inject_Z two_weeks) hi = false
                 <-> Forall gap_in_window days).
  { rewrite Forall_forall. unfold gap_in_window. split.
    - intros [H0 H14] x Hx.
      pose proof (sorted_head_le _ _ _ Hss Hlo Hx) as H1.
      pose proof (sorted_le_last _ _ _ Hss Hhi Hx) as H2.
      unfold q_le in *. rewrite Qle_bool_iff in *. split.
      + by eapply Qle_trans.
      + apply Qnot_le_lt. intros H. apply not_true_iff_false in H14.
        apply H14, Qle_bool_iff. by eapply Qle_trans.
    - intros H. split.
      + apply Qle_bool_iff, H. by apply head_Some_elem_of.
      + apply not_true_iff_false. rewrite Qle_bool_iff.
        apply Qlt_not_le, H. by apply last_Some_elem_of. }
  rewrite Hiff, <- Hres.
  destruct (Qle_bool 0 lo), (Qle_bool (inject_Z two_weeks) hi);
    split; try tauto; try (split; [intros [=]|intros [[=] [=]]]);
    try (split; [done|by intros []]).
Qed.

End Verifier.

Lemma main_checks_window_witness :
  ((VerifyWindow.main 0 [crawl1; crawl2]).2 = Ok tt <->
   Forall (fun obj => exists g,
             gap_days 0 obj = Some g /\ gap_in_window g) [crawl1; crawl2])
  /\ (~ Forall (fun obj => exists g,
                  gap_days 0 obj = Some g /\ gap_in_window g)
          [crawl1; crawl2] ->
      (VerifyWindow.main 0 [crawl1; crawl2]).2
      = Err (AssertionError GapNegativeError)
      \/ (VerifyWindow.main 0 [crawl1; crawl2]).2
         = Err (AssertionError GapTooLongError)).
Proof.
  apply (main_checks_window 0 [crawl1; crawl2]).
  - discriminate.
  - repeat constructor; eexists; vm_compute; reflexivity.
Defined.

(** The empty raw log: no crawl has an empty list or a gap outside the
    window, and the verifier ends on [gaps[0]]. *)
Lemma main_empty_log :
  Forall (fun obj => daily (clones obj) <> [] /\ daily (views obj) <> []) []
  /\ Forall (fun obj => exists g,
               gap_days 0 obj = Some g /\ gap_in_window g) []
  /\ (VerifyWindow.main 0 []).2 = Err IndexError
  /\ (VerifyWindow.main 0 []).2 <> Ok tt.
Proof. split_and!; [constructor|constructor|reflexivity|discriminate]. Qed.

(** The scenario of the specification: a first day 20 days before the
    fetch makes the verifier fail on its second assertion. *)
Example main_gap_20_days :
  (VerifyWindow.main 0 [crawl1; crawl6]).2
  = Err (AssertionError GapTooLongError).
Proof. vm_compute. reflexivity. Qed.

(** * Further properties of the code *)

Import MoreExamples.

(** * Further properties of the code *)

(** ** Grouping the raw log by repository *)

Lemma group_by_repo_lookup objs (m : gmap string (list snapshot)) r :
  group_by_repo objs m !!! r
  = (m !!! r) ++ filter (fun o => repo o = r) objs.
Proof.
  revert m. induction objs as [|obj objs IH]; intros m.
  { simpl. by rewrite filter_nil, (right_id_L [] (++)). }
  cbn [group_by_repo]. rewrite IH, filter_cons.
  destruct (decide (repo obj = r)) as [<-|Hne].
  - by rewrite lookup_total_insert_eq, <- (assoc_L (++)).
  - by rewrite lookup_total_insert_ne.
Qed.

Lemma group_by_repo_dom objs (m : gmap string (list snapshot)) :
  dom (group_by_repo objs m) = dom m ∪ list_to_set (repo <$> objs).
Proof.
  revert m. induction objs as [|obj objs IH]; intros m.
  { simpl. by rewrite (right_id_L ∅ (∪)). }
  cbn [group_by_repo]. rewrite IH, dom_insert_L. simpl.
  apply set_eq. intros x. rewrite !elem_of_union. tauto.
Qed.

Lemma group_by_repo_keys objs r :
  r ∈ sorted_keys (group_by_repo objs ∅) <-> r ∈ repo <$> objs.
Proof.
  rewrite elem_of_sorted_keys, <- elem_of_dom, group_by_repo_dom.
  rewrite dom_empty_L, (left_id_L ∅ (∪)). apply elem_of_list_to_set.
Qed.

(** X1.  The grouping loop of [process_repos] partitions the raw log: the
    list stored for a repository holds exactly the crawls of that
    repository, in the order of the log; the keys are the repositories
    that occur in the log, and no key has an empty list. *)
Theorem group_by_repo_partition objs :
  (forall r, group_by_repo objs ∅ !!! r = filter (fun o => repo o = r) objs)
  /\ (forall r, r ∈ sorted_keys (group_by_repo objs ∅) <-> r ∈ repo <$> objs)
  /\ (forall r, r ∈ sorted_keys (group_by_repo objs ∅) ->
        group_by_repo objs ∅ !!! r <> []).
Proof.
  assert (H1 : forall r,
    group_by_repo objs ∅ !!! r = filter (fun o => repo o = r) objs).
  { intros r. by rewrite group_by_repo_lookup, lookup_total_empty. }
  split_and!; [done|apply group_by_repo_keys|].
  intros r (o & -> & Ho)%group_by_repo_keys%list_elem_of_fmap.
  rewrite H1. intros E.
  assert (o ∈ filter (fun o' => repo o' = repo o) objs) as Hin
    by by apply list_elem_of_filter.
  rewrite E in Hin. by apply not_elem_of_nil in Hin.
Qed.

(** ** The window and the days listed *)

Section WindowFacts.

Variable tz : Z.

Lemma each_day_overflow days T W D :
  NoDup (date <$> days) -> fromtimestamp tz T = Ok D ->
  in_range (D - (W - 2)) && in_range (D - 1) = false ->
  each_day tz days T W = Err OverflowError.
Proof.
  intros Hn HD Hr. unfold each_day.
  rewrite index_days_empty, decide_True by done. simpl. rewrite HD. simpl.
  unfold date_sub, date_of_days.
  destruct (in_range (D - (W - 2))); [|done]. simpl.
  by destruct (in_range (D - 1)).
Qed.

Lemma NoDup_dates_filter (P : day -> Prop) `{!forall d, Decision (P d)} days :
  NoDup (date <$> days) -> NoDup (date <$> filter P days).
Proof.
  intros Hn. induction days as [|d days IH]; [done|].
  rewrite fmap_cons in Hn. apply NoDup_cons in Hn as [Hd Hn].
  rewrite filter_cons. case_decide; [|by apply IH].
  rewrite fmap_cons. apply NoDup_cons. split; [|by apply IH].
  intros (d' & E & [_ Hin]%list_elem_of_filter)%list_elem_of_fmap.
  apply Hd. rewrite E. by apply list_elem_of_fmap_2.
Qed.

(** X2.  [each_day] reads the sparse list only at the dates of its
    window: entries dated outside the window (the fetch day, the day
    before it, anything older than the window, or a string that is no
    date) are dropped without a trace, so removing them from the list does
    not change the result. *)
Theorem each_day_ignores_outside_window days T W D :
  NoDup (date <$> days) -> fromtimestamp tz T = Ok D ->
  each_day tz days T W
  = each_day tz
      (filter (fun d => date d ∈ strftime <$> seqZ (D - (W - 2)) (W - 3)) days)
      T W.
Proof.
  intros Hn HD.
  set (P := fun d => date d ∈ strftime <$> seqZ (D - (W - 2)) (W - 3)).
  pose proof (NoDup_dates_filter P days Hn) as Hn'.
  destruct (in_range (D - (W - 2)) && in_range (D - 1)) eqn:Hr.
  2:{ rewrite (each_day_overflow days T W D Hn HD Hr).
      rewrite (each_day_overflow _ T W D Hn' HD Hr). reflexivity. }
  apply andb_prop in Hr as [R1 R2].
  rewrite (each_day_ok tz days T W D Hn HD R1 R2).
  rewrite (each_day_ok tz _ T W D Hn' HD R1 R2). f_equal.
  apply Forall_fmap_ext_1, Forall_forall. intros z Hz.
  assert (Hw : strftime z ∈ strftime <$> seqZ (D - (W - 2)) (W - 3))
    by by apply list_elem_of_fmap_2.
  destruct (decide (strftime z ∈ date <$> days)) as [Hin|Hout].
  - apply list_elem_of_fmap in Hin as (d & Hd & Hin).
    assert (Hf : d ∈ filter P days).
    { apply list_elem_of_filter. split; [|done]. unfold P. by rewrite <- Hd. }
    rewrite Hd, (lookup_day_present days d Hn Hin).
    by rewrite (lookup_day_present (filter P days) d Hn' Hf).
  - assert (Hout' : strftime z ∉ date <$> filter P days).
    { intros (d & Hd & [_ Hin]%list_elem_of_filter)%list_elem_of_fmap.
      apply Hout. rewrite Hd. by apply list_elem_of_fmap_2. }
    by rewrite (lookup_day_absent days _ Hout),
      (lookup_day_absent (filter P days) _ Hout').
Qed.

(** *** The dates of the reconciled series *)

Lemma obs_dates_concat obss ymd :
  ymd ∈ obs_dates (concat obss) <-> exists obs, obs ∈ obss /\ ymd ∈ obs_dates obs.
Proof.
  unfold obs_dates. rewrite list_elem_of_fmap. split.
  - intros (o & -> & (obs & Hobs & Ho)%elem_of_concat).
    exists obs. split; [done|]. apply list_elem_of_fmap. by exists o.
  - intros (obs & Hobs & (o & -> & Ho)%list_elem_of_fmap).
    exists o. split; [done|]. apply elem_of_concat. by exists obs.
Qed.

Lemma expanded_windows_elem objs key W obss :
  expanded_windows tz objs key W = Ok obss ->
  (forall obj, obj ∈ objs -> exists obs, obs ∈ obss
     /\ each_day tz (daily (get_traffic key obj)) (time obj) W = Ok obs)
  /\ (forall obs, obs ∈ obss -> exists obj, obj ∈ objs
        /\ each_day tz (daily (get_traffic key obj)) (time obj) W = Ok obs).
Proof.
  rewrite expanded_windows_Forall2. intros Hf. split.
  - intros obj [i Hi]%list_elem_of_lookup.
    destruct (Forall2_lookup_l _ _ _ _ _ Hf Hi) as (obs & Hobs & Hday).
    exists obs. split; [|done]. by eapply list_elem_of_lookup_2.
  - intros obs [i Hi]%list_elem_of_lookup.
    destruct (Forall2_lookup_r _ _ _ _ _ Hf Hi) as (obj & Hobj & Hday).
    exists obj. split; [|done]. by eapply list_elem_of_lookup_2.
Qed.

(** X3.  The dates [get_daily_stats] returns are the days that the window
    of some crawl covers, nothing more: a day between two crawls that no
    window reaches is not in the series (zeros are filled in inside a
    window only). *)
Theorem get_daily_stats_dates_union objs key W dates counts uniques :
  get_daily_stats tz objs key W = Ok (dates, counts, uniques) ->
  forall ymd,
    ymd ∈ dates <->
    exists obj D z,
      obj ∈ objs /\ fromtimestamp tz (time obj) = Ok D
      /\ D - (W - 2) <= z < D - 1 /\ ymd = strftime z.
Proof.
  intros H ymd.
  apply get_daily_stats_dates in H as (obss & m & He & Hm & ->).
  rewrite elem_of_sorted_keys, <- elem_of_dom, Hm, elem_of_list_to_set.
  rewrite obs_dates_concat.
  destruct (expanded_windows_elem _ _ _ _ He) as [Hl Hr]. split.
  - intros (obs & (obj & Hobj & Hday)%Hr & Hin).
    destruct (each_day_dates _ _ _ _ _ Hday) as (D & HD & _ & _ & _ & Hd).
    rewrite Hd in Hin.
    apply list_elem_of_fmap in Hin as (z & -> & Hz%elem_of_seqZ).
    exists obj, D, z. split_and!; [done..|lia|lia|done].
  - intros (obj & D & z & (obs & Hobs & Hday)%Hl & HD & Hz & ->).
    exists obs. split; [done|].
    destruct (each_day_dates _ _ _ _ _ Hday) as (D' & HD' & _ & _ & _ & Hd).
    rewrite Hd. assert (D' = D) as -> by congruence.
    apply list_elem_of_fmap_2, elem_of_seqZ. lia.
Qed.

(** X4.  A day that one crawl lists with traffic and another crawl, whose
    window also covers it, does not list, stops the reconciliation: the
    zero filled in for the second crawl contradicts the first. *)
Theorem get_daily_stats_omission_conflict objs key W obss a b d Da Db z :
  expanded_windows tz objs key W = Ok obss ->
  a ∈ objs -> b ∈ objs ->
  d ∈ daily (get_traffic key a) ->
  date d ∉ date <$> daily (get_traffic key b) ->
  (count d, uniques d) <> (0, 0) ->
  date d = strftime z ->
  fromtimestamp tz (time a) = Ok Da -> Da - (W - 2) <= z < Da - 1 ->
  fromtimestamp tz (time b) = Ok Db -> Db - (W - 2) <= z < Db - 1 ->
  get_daily_stats tz objs key W
  = Err (AssertionError ReconciliationConflictError).
Proof.
  intros He Ha Hb Hd Hnb Hnz Hz HDa Hza HDb Hzb.
  destruct (expanded_windows_elem _ _ _ _ He) as [Hl _].
  destruct (Hl a Ha) as (obsa & Hobsa & Hdaya).
  destruct (Hl b Hb) as (obsb & Hobsb & Hdayb).
  assert (Hina : (strftime z, count d, uniques d) ∈ obsa).
  { destruct (each_day_dates _ _ _ _ _ Hdaya) as (D & HD & R1 & R2 & Hn & _).
    assert (D = Da) as -> by congruence.
    rewrite (each_day_ok _ _ _ _ Da) in Hdaya by done. injection Hdaya as <-.
    apply list_elem_of_fmap. exists z. split; [|apply elem_of_seqZ; lia].
    by rewrite <- Hz, lookup_day_present. }
  assert (Hinb : (strftime z, 0, 0) ∈ obsb).
  { destruct (each_day_dates _ _ _ _ _ Hdayb) as (D & HD & R1 & R2 & Hn & _).
    assert (D = Db) as -> by congruence.
    rewrite (each_day_ok _ _ _ _ Db) in Hdayb by done. injection Hdayb as <-.
    apply list_elem_of_fmap. exists z. split; [|apply elem_of_seqZ; lia].
    by rewrite <- Hz, lookup_day_absent. }
  rewrite (get_daily_stats_expanded _ _ _ _ obss) by done. simpl.
  rewrite decide_False; [done|]. intros Hcf. apply Hnz.
  apply (Hcf (strftime z)); apply elem_of_concat; eauto.
Qed.

End WindowFacts.

Lemma each_day_ignores_outside_window_witness :
  each_day 0 [Day "2023-11-05" 3 2; Day "2023-01-01" 9 9] (1700000000 # 1) 14
  = each_day 0
      (filter (fun d => date d ∈ strftime <$> seqZ (19675 - (14 - 2)) (14 - 3))
         [Day "2023-11-05" 3 2; Day "2023-01-01" 9 9])
      (1700000000 # 1) 14.
Proof.
  apply (each_day_ignores_outside_window 0
           [Day "2023-11-05" 3 2; Day "2023-01-01" 9 9]
           (1700000000 # 1) 14 19675).
  - apply (bool_decide_unpack _). vm_compute. exact I.
  - vm_compute. reflexivity.
Defined.

Lemma get_daily_stats_dates_union_witness :
  exists dates counts uniques,
    get_daily_stats 0 [crawl1; crawl2] Clones 14
    = Ok (dates, counts, uniques)
    /\ forall ymd,
         ymd ∈ dates <->
         exists obj D z,
           obj ∈ [crawl1; crawl2] /\ fromtimestamp 0 (time obj) = Ok D
           /\ D - (14 - 2) <= z < D - 1 /\ ymd = strftime z.
Proof.
  do 3 eexists. split; [vm_compute; reflexivity|].
  apply (get_daily_stats_dates_union 0 [crawl1; crawl2] Clones 14 _ _ _
           ltac:(vm_compute; reflexivity)).
Defined.

Lemma get_daily_stats_omission_conflict_witness :
  get_daily_stats 0 [crawl1; crawl7] Clones 14
  = Err (AssertionError ReconciliationConflictError).
Proof.
  apply (get_daily_stats_omission_conflict 0 [crawl1; crawl7] Clones 14 _
           crawl1 crawl7 (Day "2023-11-05" 3 2) 19675 19676 19666
           ltac:(vm_compute; reflexivity)).
  - left.
  - right. left.
  - left.
  - simpl. apply not_elem_of_nil.
  - discriminate.
  - vm_compute. reflexivity.
  - vm_compute. reflexivity.
  - lia.
  - vm_compute. reflexivity.
  - lia.
Defined.

(** ** The Repository Processor *)

Section ProcessorFacts.

Variable tz : Z.

Lemma mapM_Ok_length {A B} (f : A -> result B) l k :
  mapM f l = Ok k -> length k = length l.
Proof.
  revert k. induction l as [|x l IH]; intros k; [by intros [= <-]|].
  cbn [mapM]. intros (y & _ & H)%bind_Ok.
  apply bind_Ok in H as (k' & Hk & [= <-]). simpl. f_equal. by apply IH.
Qed.




(** Sorted distinct date strings come from increasing days. *)
Lemma strftime_sorted_days zs :
  Forall (fun z => in_range z = true) zs ->
  Sorted str_le (strftime <$> zs) -> NoDup (strftime <$> zs) ->
  Sorted Z.lt zs.
Proof.
  induction zs as [|z zs IH]; intros Hr Hs Hn; [constructor|].
  apply Forall_cons_1 in Hr as [Rz Hr]. simpl in Hs, Hn.
  apply Sorted_inv in Hs as [Hs Hh]. apply NoDup_cons in Hn as [Hnz Hn].
  constructor; [by apply IH|].
  destruct zs as [|z' zs]; [constructor|]. constructor.
  apply Forall_cons_1 in Hr as [Rz' _]. simpl in Hh.
  apply HdRel_inv in Hh.
  destruct (Z.lt_trichotomy z z') as [?|[->|Hgt]]; [done| |].
  - exfalso. apply Hnz. left.
  - exfalso. pose proof (strftime_compare _ _ Rz' Rz Hgt) as Hc.
    unfold str_le, String.leb in Hh.
    rewrite String.compare_antisym, Hc in Hh. done.
Qed.

Lemma dates_of_days (dates : list string) :
  Forall (fun ymd => exists z, in_range z = true /\ ymd = strftime z) dates ->
  exists zs, dates = strftime <$> zs
    /\ Forall (fun z => in_range z = true) zs.
Proof.
  induction 1 as [|ymd dates (z & Rz & ->) _ (zs & -> & Hzs)].
  - by exists [].
  - exists (z :: zs). split; [done|]. by constructor.
Qed.

Lemma mapM_noon_days zs :
  Forall (fun z => in_range z = true) zs ->
  mapM (noon_time_from_date tz) (strftime <$> zs)
  = Ok ((fun z => mktime tz z + inject_Z (12 * 60 * 60))%Q <$> zs).
Proof.
  induction 1 as [|z zs Rz _ IH]; [done|].
  rewrite fmap_cons. cbn [mapM].
  rewrite noon_time_from_date_strftime by done. simpl. by rewrite IH.
Qed.

(** The shape of the record [process_repo] builds. *)
Lemma process_repo_obj_shape repo objs rec :
  process_repo_obj tz repo objs = Ok rec ->
  exists zs,
    Sorted Z.lt zs /\ Forall (fun z => in_range z = true) zs
    /\ daily_dates (proc_daily rec) = strftime <$> zs
    /\ daily_times (proc_daily rec)
       = (fun z => mktime tz z + inject_Z (12 * 60 * 60))%Q <$> zs
    /\ length (daily_clones (proc_daily rec)) = length zs
    /\ length (daily_cloners (proc_daily rec)) = length zs
    /\ length (daily_views (proc_daily rec)) = length zs
    /\ length (daily_viewers (proc_daily rec)) = length zs
    /\ point_times (proc_point rec) = time <$> objs
    /\ point_forks (proc_point rec) = forks <$> objs
    /\ point_stars (proc_point rec) = stars <$> objs
    /\ point_watchers (proc_point rec) = watchers <$> objs
    /\ Forall (fun o => exists D, fromtimestamp tz (time o) = Ok D) objs.
Proof.
  unfold process_repo_obj. intros H.
  apply bind_Ok in H as ([[d1 c1] u1] & H1 & H).
  apply bind_Ok in H as ([[d2 c2] u2] & H2 & H).
  apply bind_Ok in H as ([] & Ha & H).
  apply bind_Ok in H as (ts & Ht & H). simpl in H.
  apply bind_Ok in H as ([] & _ & H). injection H as <-. simpl.
  assert (d1 = d2) as <- by by eapply get_daily_stats_same_dates.
  assert (Hlen : forall key d c u,
    get_daily_stats tz objs key 14 = Ok (d, c, u) ->
    length c = length d /\ length u = length d).
  { intros key d c u. rewrite get_daily_stats_eq.
    intros (m & _ & Hk)%bind_Ok. case_decide; [done|].
    injection Hk as <- <- <-. by rewrite !length_fmap. }
  destruct (Hlen _ _ _ _ H1) as [Hc1 Hu1].
  destruct (Hlen _ _ _ _ H2) as [Hc2 Hu2].
  pose proof H1 as Hd.
  apply get_daily_stats_dates in Hd as (obss & m & He & Hm & ->).
  destruct (dates_of_days (sorted_keys m)) as (zs & Hzs & Hr).
  { apply Forall_forall. intros ymd Hin.
    apply (expanded_windows_in_range tz objs Clones 14 obss); [done|].
    apply elem_of_sorted_keys, elem_of_dom in Hin.
    rewrite Hm in Hin. by apply elem_of_list_to_set in Hin. }
  rewrite Hzs in *. rewrite length_fmap in Hc1, Hu1, Hc2, Hu2.
  exists zs. split_and!; try done.
  - apply strftime_sorted_days; [done|rewrite <- Hzs..].
    + apply sorted_keys_sorted.
    + apply NoDup_sorted_keys.
  - rewrite mapM_noon_days in Ht by done. by injection Ht as <-.
  - apply Forall_forall. intros o Ho.
    destruct (expanded_windows_elem tz _ _ _ _ He) as [Hl _].
    destruct (Hl o Ho) as (obs & _ & Hday).
    destruct (each_day_dates _ _ _ _ _ Hday) as (D & HD & _). by exists D.
Qed.


End ProcessorFacts.


(** ** Strings: file names *)

Lemma str_length_app (s t : string) :
  String.length (s ++ t) = (String.length s + String.length t)%nat.
Proof. induction s as [|c s IH]; [done|]. simpl. by rewrite IH. Qed.

Lemma str_app_inv_tail (s1 s2 t : string) :
  (s1 ++ t = s2 ++ t)%string -> s1 = s2.
Proof.
  revert s2. induction s1 as [|c s1 IH]; intros [|c' s2] H; [done| | |].
  - apply (f_equal String.length) in H.
    change (String c' s2 ++ t)%string with (String c' (s2 ++ t)) in H.
    rewrite !str_length_app in H. simpl in H. rewrite ?str_length_app in H. lia.
  - apply (f_equal String.length) in H.
    change (String c s1 ++ t)%string with (String c (s1 ++ t)) in H.
    rewrite !str_length_app in H. simpl in H. rewrite ?str_length_app in H. lia.
  - simpl in H. injection H as -> H. f_equal. by apply IH.
Qed.

Lemma replace_slash_app (s t : string) :
  replace_slash (s ++ t) = (replace_slash s ++ replace_slash t)%string.
Proof. induction s as [|c s IH]; [done|]. simpl. by rewrite IH. Qed.

Lemma replace_slash_no_slash s :
  no_char "/" s = true -> replace_slash s = s.
Proof.
  induction s as [|c s IH]; [done|]. simpl.
  intros [Hc Hs]%andb_prop. apply negb_true_iff in Hc. rewrite Hc.
  f_equal. by apply IH.
Qed.

Lemma replace_slash_full_name owner name :
  no_char "/" owner = true -> no_char "/" name = true ->
  replace_slash (full_name owner name) = (owner ++ "." ++ name)%string.
Proof.
  intros Ho Hn. unfold full_name.
  rewrite !replace_slash_app.
  rewrite (replace_slash_no_slash owner), (replace_slash_no_slash name) by done.
  reflexivity.
Qed.

Lemma dotted_inj owner1 name1 owner2 name2 :
  no_char "." owner1 = true -> no_char "." owner2 = true ->
  (owner1 ++ "." ++ name1 = owner2 ++ "." ++ name2)%string ->
  owner1 = owner2 /\ name1 = name2.
Proof.
  revert owner2.
  induction owner1 as [|c o1 IH]; intros [|c' o2] H1 H2 E; simpl in *.
  - injection E as E. by subst.
  - injection E as Ec _. subst c'. by rewrite Ascii.eqb_refl in H2.
  - injection E as Ec _. subst c. by rewrite Ascii.eqb_refl in H1.
  - injection E as Ec E. subst c'.
    apply andb_prop in H1 as [_ H1]. apply andb_prop in H2 as [_ H2].
    destruct (IH o2 H1 H2 E) as [-> ->]. done.
Qed.

(** A repository name formed by the hosting service. *)

Lemma basename_inj r1 r2 :
  well_formed_name r1 -> well_formed_name r2 ->
  (replace_slash r1 ++ ".json" = replace_slash r2 ++ ".json")%string ->
  r1 = r2.
Proof.
  intros (o1 & n1 & -> & Hd1 & Ho1 & Hn1) (o2 & n2 & -> & Hd2 & Ho2 & Hn2) E.
  apply str_app_inv_tail in E.
  rewrite !replace_slash_full_name in E by done.
  by destruct (dotted_inj _ _ _ _ Hd1 Hd2 E) as [-> ->].
Qed.

(** ** The batch: which files a run leaves *)

Section BatchFiles.

Variable tz : Z.

Lemma process_repo_obj_repo repo objs rec :
  process_repo_obj tz repo objs = Ok rec -> proc_repo rec = repo.
Proof.
  unfold process_repo_obj. intros H.
  apply bind_Ok in H as ([[d1 c1] u1] & _ & H).
  apply bind_Ok in H as ([[d2 c2] u2] & _ & H).
  apply bind_Ok in H as ([] & _ & H).
  apply bind_Ok in H as (ts & _ & H). simpl in H.
  apply bind_Ok in H as ([] & _ & H). by injection H as <-.
Qed.

(** Whatever its outcome, the loop only adds complete records. *)
Lemma process_each_files repo2objs repos dir dir' r :
  process_each tz repo2objs repos dir = (dir', r) ->
  forall f rec, dir' !! f = Some rec ->
    dir !! f = Some rec
    \/ exists r', r' ∈ repos
         /\ f = (replace_slash r' ++ ".json")%string
         /\ process_repo_obj tz r' (repo2objs !!! r') = Ok rec.
Proof.
  revert dir. induction repos as [|r0 repos IH]; intros dir H f rec Hf.
  { injection H as <- _. by left. }
  cbn [process_each] in H. unfold process_repo in H.
  destruct (process_repo_obj tz r0 (repo2objs !!! r0)) as [rec0|e] eqn:H0.
  2:{ injection H as <- _. by left. }
  destruct (IH _ H f rec Hf) as [Hold|(r' & Hr' & -> & Hrec)].
  - destruct (decide ((replace_slash r0 ++ ".json")%string = f)) as [<-|Hne].
    + rewrite lookup_insert_eq in Hold. injection Hold as <-.
      right. exists r0. split_and!; [left|done..].
    + rewrite lookup_insert_ne in Hold by done. by left.
  - right. exists r'. split_and!; [by right|done..].
Qed.

(** A successful loop leaves, for each repository, the record of the last
    repository written under its file name. *)
Lemma process_each_Ok_lookup repo2objs repos dir dir' :
  NoDup ((fun r => (replace_slash r ++ ".json")%string) <$> repos) ->
  process_each tz repo2objs repos dir = (dir', Ok tt) ->
  (forall r, r ∈ repos -> exists rec,
     dir' !! (replace_slash r ++ ".json")%string = Some rec
     /\ process_repo_obj tz r (repo2objs !!! r) = Ok rec)
  /\ (forall f,
       f ∉ (fun r => (replace_slash r ++ ".json")%string) <$> repos ->
       dir' !! f = dir !! f).
Proof.
  revert dir. induction repos as [|r0 repos IH]; intros dir Hn H.
  { injection H as <-. split; [by intros r Hr%elem_of_nil|done]. }
  rewrite fmap_cons in Hn. apply NoDup_cons in Hn as [Hr0 Hn].
  cbn [process_each] in H. unfold process_repo in H.
  destruct (process_repo_obj tz r0 (repo2objs !!! r0)) as [rec0|e] eqn:H0;
    [|done].
  destruct (IH _ Hn H) as [Hin Hout]. split.
  - intros r [->|Hr]%elem_of_cons; [|by apply Hin].
    exists rec0. split; [|done].
    by rewrite Hout, lookup_insert_eq.
  - intros f Hf. rewrite fmap_cons in Hf.
    apply not_elem_of_cons in Hf as [Hne Hf].
    by rewrite Hout, lookup_insert_ne.
Qed.

(** X7.  A missing or empty raw log makes [process_repos] raise
    [ValueError] and leaves the processed directory as it was.  On any
    other raw log the directory is emptied first: whatever the run's
    outcome, every file it leaves holds the complete record that
    [process_repo] built in this run for a repository of the log, from the
    crawls of that repository. *)
Theorem process_repos_no_stale_files raw_file proc_dir proc_dir' r :
  process_repos tz raw_file proc_dir = (proc_dir', r) ->
  match raw_file with
  | None | Some [] => proc_dir' = proc_dir /\ r = Err ValueError
  | Some objs =>
      exists dir, proc_dir' = Some dir
        /\ forall f rec, dir !! f = Some rec ->
             exists name, name ∈ repo <$> objs
               /\ f = (replace_slash name ++ ".json")%string
               /\ process_repo_obj tz name
                    (filter (fun o => repo o = name) objs) = Ok rec
  end.
Proof.
  unfold process_repos. destruct raw_file as [[|obj objs]|].
  - by intros [= <- <-].
  - destruct (process_each _ _ _ _) as [dir r0] eqn:H. intros [= <- <-].
    exists dir. split; [done|]. intros f rec Hf.
    destruct (process_each_files _ _ _ _ _ H f rec Hf)
      as [Hold|(r' & Hr' & -> & Hrec)]; [by rewrite lookup_empty in Hold|].
    exists r'. split_and!; [by apply group_by_repo_keys|done|].
    by rewrite group_by_repo_lookup, lookup_total_empty in Hrec.
  - by intros [= <- <-].
Qed.

(** X8.  When the names of the repositories are formed as the hosting
    service forms them (owner without dot, one slash), a successful run
    leaves exactly one file per repository of the log: the file of a
    repository holds the record built from its crawls, and there is no
    other file. *)
Theorem process_repos_one_file_per_repo obj objs proc_dir dir :
  process_repos tz (Some (obj :: objs)) proc_dir = (Some dir, Ok tt) ->
  Forall (fun o => well_formed_name (repo o)) (obj :: objs) ->
  (forall o, o ∈ obj :: objs ->
     exists rec,
       dir !! (replace_slash (repo o) ++ ".json")%string = Some rec
       /\ proc_repo rec = repo o
       /\ process_repo_obj tz (repo o)
            (filter (fun o' => repo o' = repo o) (obj :: objs)) = Ok rec)
  /\ (forall f, is_Some (dir !! f) ->
        exists o, o ∈ obj :: objs
          /\ f = (replace_slash (repo o) ++ ".json")%string).
Proof.
  unfold process_repos. set (l := obj :: objs).
  destruct (process_each _ _ _ _) as [dir' r'] eqn:H. intros [= -> ->] Hwf.
  assert (Hnd : NoDup ((fun r => (replace_slash r ++ ".json")%string)
                         <$> sorted_keys (group_by_repo l ∅))).
  { apply NoDup_fmap_2_strong; [|apply NoDup_sorted_keys].
    intros r1 r2 (o1 & -> & Ho1)%group_by_repo_keys%list_elem_of_fmap
      (o2 & -> & Ho2)%group_by_repo_keys%list_elem_of_fmap.
    rewrite Forall_forall in Hwf. apply basename_inj; by apply Hwf. }
  destruct (process_each_Ok_lookup _ _ _ _ Hnd H) as [Hin _]. split.
  - intros o Ho.
    destruct (Hin (repo o)) as (rec & Hf & Hrec).
    { apply group_by_repo_keys, list_elem_of_fmap. by exists o. }
    exists rec. rewrite group_by_repo_lookup, lookup_total_empty in Hrec.
    split_and!; [done| |done].
    by apply process_repo_obj_repo in Hrec.
  - intros f [rec Hf].
    destruct (process_each_files _ _ _ _ _ H f rec Hf)
      as [Hold|(r' & Hr' & -> & _)]; [by rewrite lookup_empty in Hold|].
    apply group_by_repo_keys, list_elem_of_fmap in Hr' as (o & -> & Ho).
    by exists o.
Qed.

End BatchFiles.

Lemma process_repos_no_stale_files_witness :
  exists dir,
    (process_repos 0 (Some [crawl1; crawl2; crawl4]) None).1 = Some dir
    /\ forall f rec, dir !! f = Some rec ->
         exists name, name ∈ repo <$> [crawl1; crawl2; crawl4]
           /\ f = (replace_slash name ++ ".json")%string
           /\ process_repo_obj 0 name
                (filter (fun o => repo o = name) [crawl1; crawl2; crawl4])
              = Ok rec.
Proof.
  apply (process_repos_no_stale_files 0 (Some [crawl1; crawl2; crawl4]) None
           (process_repos 0 (Some [crawl1; crawl2; crawl4]) None).1
           (process_repos 0 (Some [crawl1; crawl2; crawl4]) None).2).
  vm_compute. reflexivity.
Defined.

Lemma process_repos_one_file_per_repo_witness :
  exists dir,
    process_repos 0 (Some [crawl1; crawl2; crawl4]) None = (Some dir, Ok tt)
    /\ (forall o, o ∈ [crawl1; crawl2; crawl4] ->
          exists rec,
            dir !! (replace_slash (repo o) ++ ".json")%string = Some rec
            /\ proc_repo rec = repo o
            /\ process_repo_obj 0 (repo o)
                 (filter (fun o' => repo o' = repo o)
                    [crawl1; crawl2; crawl4]) = Ok rec)
    /\ (forall f, is_Some (dir !! f) ->
          exists o, o ∈ [crawl1; crawl2; crawl4]
            /\ f = (replace_slash (repo o) ++ ".json")%string).
Proof.
  eexists. split; [vm_compute; reflexivity|].
  apply (process_repos_one_file_per_repo 0 crawl1 [crawl2; crawl4] None).
  - vm_compute. reflexivity.
  - repeat constructor.
    + exists "acme"%string, "widget"%string. repeat split; reflexivity.
    + exists "acme"%string, "widget"%string. repeat split; reflexivity.
    + exists "acme"%string, "gadget"%string. repeat split; reflexivity.
Defined.

(** ** More on the Window Invariant Verifier *)

Section VerifierFacts.
Import VerifyWindow.

Variable tz : Z.





Lemma gap_days_gap_of obj :
  match gap_days tz obj with
  | Some g => exists secs, gap_of tz obj = Ok secs
                /\ g = (secs / inject_Z sec_per_day)%Q
  | None => exists e, gap_of tz obj = Err e
              /\ (e = IndexError \/ e = ValueError)
              /\ (e = IndexError <->
                  daily (clones obj) = []
                  \/ (is_Some (first_day (daily (clones obj)))
                      /\ daily (views obj) = []))
  end.
Proof.
  destruct (gap_days tz obj) as [g|] eqn:Hg; [by apply gap_of_days|].
  unfold gap_days in Hg. unfold gap_of. rewrite !first_then_day.
  destruct (first_day (daily (clones obj))) as [z1|] eqn:H1.
  - destruct (first_day (daily (views obj))) as [z2|] eqn:H2; [done|].
    simpl. destruct (daily (views obj)) as [|d ds] eqn:Hv.
    + exists IndexError. split_and!; [done|by left|].
      split; [intros _; right; by eauto|done].
    + exists ValueError. split_and!; [done|by right|].
      split; [done|]. intros [Hc|[_ [=]]].
      by rewrite Hc in H1.
  - simpl. destruct (daily (clones obj)) as [|d ds] eqn:Hc.
    + exists IndexError. split_and!; [done|by left|]. split; [by left|done].
    + exists ValueError. split_and!; [done|by right|].
      split; [done|]. intros [[=]|[[? [=]] _]].
Qed.

Lemma mapM_gap_of_Err pre obj post e :
  Forall (fun o => is_Some (gap_days tz o)) pre ->
  gap_of tz obj = Err e ->
  mapM (gap_of tz) (pre ++ obj :: post) = Err e.
Proof.
  intros Hpre He. induction Hpre as [|o pre [g Hg] _ IH].
  - cbn [app mapM]. by rewrite He.
  - destruct (gap_of_days _ _ _ Hg) as (secs & Hs & _).
    cbn [app mapM]. rewrite Hs. simpl. by rewrite IH.
Qed.

Lemma gaps_omap objs gaps :
  Forall2 (fun obj secs =>
             gap_days tz obj = Some (secs / inject_Z sec_per_day)%Q)
          objs gaps ->
  (fun gap => gap / inject_Z sec_per_day)%Q <$> gaps
  = omap (gap_days tz) objs.
Proof.
  induction 1 as [|obj secs objs gaps H _ IH]; [done|].
  rewrite fmap_cons. cbn [omap list_omap]. by rewrite H, IH.
Qed.

(** X10.  When every crawl has a gap, the values [main] prints are the
    gaps of the crawls in days, each once, in increasing order; they are
    printed whether or not the assertions pass afterwards. *)
Theorem main_prints_sorted_gaps objs :
  Forall (fun obj => is_Some (gap_days tz obj)) objs ->
  Sorted q_le (main tz objs).1
  /\ (main tz objs).1 ≡ₚ omap (gap_days tz) objs.
Proof.
  intros Hall. destruct (mapM_gap_of tz objs Hall) as (gaps & Hm & Hf).
  unfold main. rewrite Hm. simpl. rewrite (gaps_omap _ _ Hf). split.
  - apply (Sorted_merge_sort q_le).
  - apply (merge_sort_Permutation q_le).
Qed.

(** X11.  A crawl whose clones or views list is empty (a repository
    without traffic in the window), or starts with a string that is no
    date, stops the verifier before it prints a value or checks a gap:
    with [IndexError] for the empty list, with [ValueError] for the
    string; the first such crawl of the log decides. *)
Theorem main_stops_at_bad_crawl pre obj post :
  Forall (fun o => is_Some (gap_days tz o)) pre ->
  gap_days tz obj = None ->
  exists e,
    main tz (pre ++ obj :: post) = ([], Err e)
    /\ (e = IndexError \/ e = ValueError)
    /\ (e = IndexError <->
        daily (clones obj) = []
        \/ (is_Some (first_day (daily (clones obj)))
            /\ daily (views obj) = [])).
Proof.
  intros Hpre Hnone. pose proof (gap_days_gap_of obj) as H.
  rewrite Hnone in H. destruct H as (e & He & Hkind & Hidx).
  exists e. split_and!; [|done..].
  unfold main. by rewrite (mapM_gap_of_Err _ _ _ _ Hpre He).
Qed.

Lemma first_then_take days : first_then tz (take 1 days) = first_then tz days.
Proof. by destruct days. Qed.

Lemma mapM_ext {A B} (f g : A -> result B) l :
  (forall x, f x = g x) -> mapM f l = mapM g l.
Proof.
  intros H. induction l as [|x l IH]; [done|].
  cbn [mapM]. by rewrite H, IH.
Qed.

Lemma mapM_fmap {A B C} (f : B -> result C) (g : A -> B) l :
  mapM f (g <$> l) = mapM (fun x => f (g x)) l.
Proof.
  induction l as [|x l IH]; [done|].
  rewrite fmap_cons. cbn [mapM]. by rewrite IH.
Qed.

(** X12.  The verifier reads the first entry of each [daily] list and
    nothing else of the lists: its output and its result are those on the
    log with every list cut after its first entry.  A day listed later
    that lies outside the window goes unnoticed. *)
Theorem main_reads_first_entries objs :
  main tz objs = main tz (first_entries <$> objs).
Proof.
  unfold main. rewrite mapM_fmap.
  rewrite (mapM_ext (fun x => gap_of tz (first_entries x)) (gap_of tz)); [done|].
  intros obj. unfold gap_of. simpl. by rewrite !first_then_take.
Qed.

End VerifierFacts.


Lemma main_prints_sorted_gaps_witness :
  Sorted q_le (VerifyWindow.main 0 [crawl1; crawl2]).1
  /\ (VerifyWindow.main 0 [crawl1; crawl2]).1
     ≡ₚ omap (gap_days 0) [crawl1; crawl2].
Proof.
  apply (main_prints_sorted_gaps 0 [crawl1; crawl2]).
  repeat constructor; eexists; vm_compute; reflexivity.
Defined.

Lemma main_stops_at_bad_crawl_witness :
  exists e,
    VerifyWindow.main 0 ([crawl1] ++ crawl7 :: [crawl2]) = ([], Err e)
    /\ (e = IndexError \/ e = ValueError)
    /\ (e = IndexError <->
        daily (clones crawl7) = []
        \/ (is_Some (first_day (daily (clones crawl7)))
            /\ daily (views crawl7) = [])).
Proof.
  apply (main_stops_at_bad_crawl 0 [crawl1] crawl7 [crawl2]).
  - repeat constructor; eexists; vm_compute; reflexivity.
  - vm_compute. reflexivity.
Defined.

(** ** fetch.py: the date of a listed day *)

Lemma index_space_none s :
  no_char " " s = true -> index_space s = Err ValueError.
Proof.
  induction s as [|c s IH]; [done|]. simpl.
  intros [Hc Hs]%andb_prop. apply negb_true_iff in Hc. rewrite Hc.
  by rewrite IH.
Qed.

Lemma index_space_app pre post :
  no_char " " pre = true ->
  index_space (pre ++ " " ++ post) = Ok (String.length pre).
Proof.
  induction pre as [|c pre IH]; [done|]. simpl.
  intros [Hc Hs]%andb_prop. apply negb_true_iff in Hc. rewrite Hc.
  by rewrite IH.
Qed.

Lemma str_take_app s t : str_take (String.length s) (s ++ t) = s.
Proof. induction s as [|c s IH]; [by destruct t|]. simpl. by rewrite IH. Qed.

Lemma day_to_json_split obj pre post :
  timestamp_str obj = (pre ++ " " ++ post)%string ->
  no_char " " pre = true ->
  day_to_json obj
  = Ok {| date := pre; count := api_count obj; uniques := api_uniques obj |}.
Proof.
  unfold day_to_json. intros -> H. rewrite index_space_app by done. simpl.
  by rewrite str_take_app.
Qed.

(** X13.  [day_to_json] takes as date what stands before the first space
    of the timestamp's string; a timestamp whose string has no space makes
    it raise [ValueError]. *)
Theorem day_to_json_date obj :
  (no_char " " (timestamp_str obj) = true ->
   day_to_json obj = Err ValueError)
  /\ (forall pre post,
        timestamp_str obj = (pre ++ " " ++ post)%string ->
        no_char " " pre = true ->
        day_to_json obj
        = Ok {| date := pre; count := api_count obj;
                uniques := api_uniques obj |}).
Proof.
  split; [|apply day_to_json_split].
  unfold day_to_json. intros H. by rewrite index_space_none.
Qed.

Lemma digit_not_space n : Ascii.eqb (digit n) " " = false.
Proof.
  apply Ascii.eqb_neq. intros E.
  pose proof (digit_val_digit n) as H. by rewrite E in H.
Qed.

Lemma strftime_no_space z : no_char " " (strftime z) = true.
Proof.
  unfold strftime. destruct (civil_from_days z) as [[y m] d].
  unfold format_ymd, fmt4, fmt2. simpl. by rewrite !digit_not_space.
Qed.

Section Fetched.

Variable tz : Z.

Lemma mapM_day_to_json (days : list api_day) zs :
  Forall2 (fun a z => in_range z = true /\ exists rest,
             timestamp_str a = (strftime z ++ " " ++ rest)%string) days zs ->
  mapM day_to_json days
  = Ok (zip_with (fun a z => {| date := strftime z; count := api_count a;
                                uniques := api_uniques a |}) days zs).
Proof.
  induction 1 as [|a z days zs (Rz & rest & Hts) _ IH]; [done|].
  cbn [mapM]. rewrite (day_to_json_split a _ _ Hts (strftime_no_space z)).
  simpl. by rewrite IH.
Qed.

Lemma zip_with_dates (days : list api_day) zs :
  length days = length zs ->
  date <$> zip_with (fun a z => {| date := strftime z; count := api_count a;
                                   uniques := api_uniques a |}) days zs
  = strftime <$> zs.
Proof.
  revert zs. induction days as [|a days IH]; intros [|z zs] Hl; try done.
  simpl in *. f_equal. apply IH. lia.
Qed.

(** X14.  From the API to the series: when the timestamps of the days
    listed by the API read as distinct dates (year-month-day, then a
    space), [traffic_to_json] stores them under these dates, and
    [each_day] finds each of them that lies in the window of the crawl:
    the day then carries the count and the uniques the API listed. *)
Theorem fetched_days_are_reported obj zs :
  Forall2 (fun a z => in_range z = true /\ exists rest,
             timestamp_str a = (strftime z ++ " " ++ rest)%string)
          (api_days obj) zs ->
  NoDup zs ->
  exists t,
    traffic_to_json obj = Ok t
    /\ total_count t = api_total obj
    /\ total_uniques t = api_total_uniques obj
    /\ date <$> daily t = strftime <$> zs
    /\ forall T W D,
         fromtimestamp tz T = Ok D ->
         in_range (D - (W - 2)) = true -> in_range (D - 1) = true ->
         exists obs,
           each_day tz (daily t) T W = Ok obs
           /\ forall a z, (a, z) ∈ zip (api_days obj) zs ->
                D - (W - 2) <= z < D - 1 ->
                (strftime z, api_count a, api_uniques a) ∈ obs.
Proof.
  intros Hf Hn. unfold traffic_to_json.
  rewrite (mapM_day_to_json _ _ Hf). simpl. eexists. split; [done|]. simpl.
  pose proof (Forall2_length _ _ _ Hf) as Hlen.
  set (days := zip_with _ (api_days obj) zs).
  assert (Hdates : date <$> days = strftime <$> zs) by by apply zip_with_dates.
  assert (Hnd : NoDup (date <$> days)).
  { rewrite Hdates. apply NoDup_fmap_2_strong; [|done].
    intros z1 z2 H1 H2. apply strftime_inj.
    - destruct (list_elem_of_lookup_1 _ _ H1) as [i Hi].
      destruct (Forall2_lookup_r _ _ _ _ _ Hf Hi) as (a & _ & R & _). done.
    - destruct (list_elem_of_lookup_1 _ _ H2) as [i Hi].
      destruct (Forall2_lookup_r _ _ _ _ _ Hf Hi) as (a & _ & R & _). done. }
  split_and!; [done..|].
  intros T W D HD R1 R2. rewrite (each_day_ok tz days T W D Hnd HD R1 R2).
  eexists. split; [done|]. intros a z Hin Hz.
  apply list_elem_of_fmap. exists z. split; [|apply elem_of_seqZ; lia].
  assert (Hd : {| date := strftime z; count := api_count a;
                  uniques := api_uniques a |} ∈ days).
  { unfold days. apply list_elem_of_lookup in Hin as [i Hi].
    apply lookup_zip_with_Some in Hi as (a' & z' & [= <- <-] & Ha & Hz').
    apply list_elem_of_lookup. exists i.
    apply lookup_zip_with_Some. by exists a, z. }
  pose proof (lookup_day_present days _ Hnd Hd) as Hl.
  cbn [date count uniques] in Hl. by rewrite Hl.
Qed.

End Fetched.

Lemma fetched_days_are_reported_witness :
  exists t,
    traffic_to_json api_clones = Ok t
    /\ total_count t = api_total api_clones
    /\ total_uniques t = api_total_uniques api_clones
    /\ date <$> daily t = strftime <$> [19666]
    /\ forall T W D,
         fromtimestamp 0 T = Ok D ->
         in_range (D - (W - 2)) = true -> in_range (D - 1) = true ->
         exists obs,
           each_day 0 (daily t) T W = Ok obs
           /\ forall a z, (a, z) ∈ zip (api_days api_clones) [19666] ->
                D - (W - 2) <= z < D - 1 ->
                (strftime z, api_count a, api_uniques a) ∈ obs.
Proof.
  apply (fetched_days_are_reported 0 api_clones [19666]).
  - repeat constructor.
    exists "00:00:00+00:00"%string. vm_compute. reflexivity.
  - apply (bool_decide_unpack _). vm_compute. exact I.
Defined.

(** ** Dates read by [strptime] *)

Lemma days_from_civil_range y m d :
  1 <= y <= 9999 -> 1 <= m <= 12 -> 1 <= d <= 31 ->
  in_range (days_from_civil y m d) = true.
Proof.
  intros Hy Hm Hd. unfold in_range, days_from_civil, MINDAY, MAXDAY,
    cycle_days, cycle_shift.
  apply andb_true_intro.
  destruct (Z.leb_spec m 2); destruct (Z.gtb_spec m 2); try lia;
    split; apply Z.leb_le; Z.to_euclidean_division_equations; lia.
Qed.

Lemma digit_val_range c v : digit_val c = Some v -> 0 <= v <= 9.
Proof.
  unfold digit_val. case_match eqn:E; [|done]. intros [= <-].
  apply andb_prop in E as [? ?]. lia.
Qed.

Lemma field1_range c v : field1 c = Some v -> 1 <= v <= 9.
Proof.
  unfold field1. destruct (digit_val c) as [w|] eqn:E; [|done].
  apply digit_val_range in E. case_match; [|done]. intros [= <-]. lia.
Qed.

Lemma field2_range c1 c2 hi v : field2 c1 c2 hi = Some v -> 1 <= v <= hi.
Proof.
  unfold field2. destruct (digit_val c1), (digit_val c2); try done.
  case_match eqn:E; [|done]. intros [= <-]. lia.
Qed.

Lemma parse_day_range s d : parse_day s = Some d -> 1 <= d <= 31.
Proof.
  unfold parse_day. destruct s as [|c1 [|c2 [|c3 s]]]; try done.
  - intros Hf%field1_range. lia.
  - case_match.
    + intros Hf%field1_range. lia.
    + apply field2_range.
Qed.

Lemma parse_month_day_range s m d :
  parse_month_day s = Some (m, d) -> 1 <= m <= 12 /\ 1 <= d <= 31.
Proof.
  unfold parse_month_day. intros H.
  repeat (case_match; try done); simplify_eq;
    repeat match goal with
    | H : field1 _ = Some _ |- _ => apply field1_range in H
    | H : field2 _ _ _ = Some _ |- _ => apply field2_range in H
    | H : parse_day _ = Some _ |- _ => apply parse_day_range in H
    end; lia.
Qed.

Lemma parse_year_range c1 c2 c3 c4 y :
  parse_year c1 c2 c3 c4 = Some y -> 0 <= y <= 9999.
Proof.
  unfold parse_year.
  destruct (digit_val c1) eqn:E1, (digit_val c2) eqn:E2,
    (digit_val c3) eqn:E3, (digit_val c4) eqn:E4; try done.
  apply digit_val_range in E1, E2, E3, E4. intros [= <-]. lia.
Qed.

(** What [strptime] accepts is a date of the calendar. *)
Lemma strptime_in_range s z : strptime s = Ok z -> in_range z = true.
Proof.
  unfold strptime. intros H.
  destruct s as [|c1 [|c2 [|c3 [|c4 [|c5 rest]]]]]; try done.
  repeat (case_match; try done); simplify_eq.
  match goal with H : parse_year _ _ _ _ = Some _ |- _ =>
    apply parse_year_range in H end.
  match goal with H : parse_month_day _ = Some _ |- _ =>
    apply parse_month_day_range in H as [? ?] end.
  match goal with H : _ && _ = true |- _ => apply andb_prop in H as [? ?] end.
  apply days_from_civil_range; lia.
Qed.

Section Noon.

Variable tz : Z.

(** Local noon of a day falls on that day. *)
Lemma fromtimestamp_noon z :
  in_range z = true ->
  fromtimestamp tz (mktime tz z + inject_Z (12 * 60 * 60))%Q = Ok z.
Proof.
  intros R.
  assert (Hfl : Qfloor (mktime tz z + inject_Z (12 * 60 * 60))%Q
                = 86400 * z - tz + 43200).
  { unfold mktime, Qplus, inject_Z, Qfloor. simpl.
    rewrite !Z.mul_1_r, Z.div_1_r. done. }
  unfold fromtimestamp. rewrite Hfl.
  replace ((86400 * z - tz + 43200 + tz) / 86400) with z.
  - unfold date_of_days. by rewrite R.
  - pose proof (Z.div_mod (86400 * z - tz + 43200 + tz) 86400 ltac:(done)).
    pose proof (Z.mod_pos_bound (86400 * z - tz + 43200 + tz) 86400 eq_refl).
    lia.
Qed.

(** X15.  [noon_time_from_date] succeeds on the strings [strptime] reads
    as a date and raises [ValueError] on the others; read back with
    [date.fromtimestamp], as [plot_repo] does, its timestamp gives the
    date again. *)
Theorem noon_time_from_date_round_trip ymd :
  match strptime ymd with
  | Ok z =>
      exists t, noon_time_from_date tz ymd = Ok t
        /\ fromtimestamp tz t = Ok z
  | Err _ => noon_time_from_date tz ymd = Err ValueError
  end.
Proof.
  unfold noon_time_from_date.
  destruct (strptime ymd) as [z|e] eqn:E; simpl.
  - eexists. split; [done|]. apply strptime_in_range in E.
    by apply fromtimestamp_noon.
  - unfold strptime in E. repeat (case_match; try done); by injection E as <-.
Qed.

End Noon.

(** ** The plots *)

Lemma substring_app_tail (s t : string) n :
  String.substring (String.length s) n (s ++ t) = String.substring 0 n t.
Proof. induction s as [|c s IH]; [done|]. simpl. by rewrite IH. Qed.

Lemma str_endswith_json s : str_endswith ".json" (s ++ ".json") = true.
Proof.
  unfold str_endswith. rewrite str_length_app.
  change (String.length ".json") with 5%nat.
  rewrite Nat.add_sub, substring_app_tail.
  replace (5 <=? String.length s + 5)%nat with true
    by (symmetry; apply Nat.leb_le; lia).
  done.
Qed.

Lemma str_drop_last_json s : str_drop_last 5 (s ++ ".json") = s.
Proof.
  unfold str_drop_last. rewrite str_length_app.
  change (String.length ".json") with 5%nat.
  rewrite Nat.add_sub. apply str_take_app.
Qed.

Section PlotFacts.

Variable tz : Z.

Lemma mapM_fromtimestamp_noon zs :
  Forall (fun z => in_range z = true) zs ->
  mapM (fromtimestamp tz)
    ((fun z => mktime tz z + inject_Z (12 * 60 * 60))%Q <$> zs) = Ok zs.
Proof.
  induction 1 as [|z zs Rz _ IH]; [done|].
  rewrite fmap_cons. cbn [mapM].
  rewrite fromtimestamp_noon by done. simpl. by rewrite IH.
Qed.

Lemma mapM_Forall_Ok {A B} (f : A -> result B) l :
  Forall (fun x => exists y, f x = Ok y) l -> exists k, mapM f l = Ok k.
Proof.
  induction 1 as [|x l [y Hy] _ [k IH]]; [by exists []|].
  exists (y :: k). cbn [mapM]. rewrite Hy. simpl. by rewrite IH.
Qed.

(** [plot_repo] on a record with aligned columns. *)
Lemma plot_repo_aligned rec zs ds :
  mapM (fromtimestamp tz) (daily_times (proc_daily rec)) = Ok zs ->
  mapM (fromtimestamp tz) (point_times (proc_point rec)) = Ok ds ->
  length (daily_views (proc_daily rec)) = length zs ->
  length (daily_viewers (proc_daily rec)) = length zs ->
  length (daily_clones (proc_daily rec)) = length zs ->
  length (daily_cloners (proc_daily rec)) = length zs ->
  length (point_stars (proc_point rec)) = length ds ->
  length (point_forks (proc_point rec)) = length ds ->
  length (point_watchers (proc_point rec)) = length ds ->
  plot_repo tz rec
  = Ok {| fig_title := (proc_repo rec ++ " traffic")%string;
          fig_curves :=
            [ Curve "views" "#48f" ":" zs (daily_views (proc_daily rec));
              Curve "viewers" "#48f" "-" zs (daily_viewers (proc_daily rec));
              Curve "clones" "#0b0" ":" zs (daily_clones (proc_daily rec));
              Curve "cloners" "#0b0" "-" zs (daily_cloners (proc_daily rec));
              Curve "stars" "#fc0" "-" ds (point_stars (proc_point rec));
              Curve "forks" "#f80" "-" ds (point_forks (proc_point rec));
              Curve "watchers" "#f00" "-" ds
                (point_watchers (proc_point rec)) ] |}.
Proof.
  intros Hz Hd H1 H2 H3 H4 H5 H6 H7. unfold plot_repo.
  rewrite Hz, Hd. simpl.
  rewrite !decide_True by done. done.
Qed.

(** [plot_repo] does not fail on a record [process_repo] built. *)
Lemma plot_repo_processed repo objs rec :
  process_repo_obj tz repo objs = Ok rec ->
  exists zs ds,
    strftime <$> zs = daily_dates (proc_daily rec)
    /\ mapM (fromtimestamp tz) (time <$> objs) = Ok ds
    /\ mapM (fromtimestamp tz) (daily_times (proc_daily rec)) = Ok zs
    /\ mapM (fromtimestamp tz) (point_times (proc_point rec)) = Ok ds
    /\ length (daily_views (proc_daily rec)) = length zs
    /\ length (daily_viewers (proc_daily rec)) = length zs
    /\ length (daily_clones (proc_daily rec)) = length zs
    /\ length (daily_cloners (proc_daily rec)) = length zs
    /\ length (point_stars (proc_point rec)) = length ds
    /\ length (point_forks (proc_point rec)) = length ds
    /\ length (point_watchers (proc_point rec)) = length ds.
Proof.
  intros H.
  destruct (process_repo_obj_shape _ _ _ _ H)
    as (zs & _ & Hr & Hdates & Htimes & Hc & Hcu & Hv & Hvu
        & Hpt & Hpf & Hps & Hpw & Hobjs).
  destruct (mapM_Forall_Ok (fromtimestamp tz) (time <$> objs)) as [ds Hds].
  { apply Forall_fmap. eapply Forall_impl; [exact Hobjs|]. by intros o. }
  pose proof (mapM_Ok_length _ _ _ Hds) as Hl. rewrite length_fmap in Hl.
  exists zs, ds. rewrite Htimes, Hpt, Hpf, Hps, Hpw, !length_fmap.
  split_and!; try done. by apply mapM_fromtimestamp_noon.
Qed.

(** X16.  On a record built by [process_repo], under the time zone of the
    processing run, [plot_repo] does not fail.  It draws the seven curves
    in the order of [fields]; the days of the four daily curves are the
    days of the record's date strings (the noon times fall back on their
    days), and the days of the three point curves are the local days of
    the crawls. *)
Theorem plot_repo_of_processed repo objs rec :
  process_repo_obj tz repo objs = Ok rec ->
  exists zs ds,
    strftime <$> zs = daily_dates (proc_daily rec)
    /\ mapM (fromtimestamp tz) (time <$> objs) = Ok ds
    /\ plot_repo tz rec
       = Ok {| fig_title := (repo ++ " traffic")%string;
               fig_curves :=
                 [ Curve "views" "#48f" ":" zs (daily_views (proc_daily rec));
                   Curve "viewers" "#48f" "-" zs
                     (daily_viewers (proc_daily rec));
                   Curve "clones" "#0b0" ":" zs
                     (daily_clones (proc_daily rec));
                   Curve "cloners" "#0b0" "-" zs
                     (daily_cloners (proc_daily rec));
                   Curve "stars" "#fc0" "-" ds (stars <$> objs);
                   Curve "forks" "#f80" "-" ds (forks <$> objs);
                   Curve "watchers" "#f00" "-" ds (watchers <$> objs) ] |}.
Proof.
  intros H.
  destruct (plot_repo_processed _ _ _ H)
    as (zs & ds & Hdates & Hds & Hz & Hd & H1 & H2 & H3 & H4 & H5 & H6 & H7).
  exists zs, ds. split_and!; [done..|].
  rewrite (plot_repo_aligned rec zs ds) by done.
  destruct (process_repo_obj_shape _ _ _ _ H)
    as (_ & _ & _ & _ & _ & _ & _ & _ & _ & _ & -> & -> & -> & _).
  by rewrite (process_repo_obj_repo _ _ _ _ H).
Qed.

(** The loop of [plot_repos]. *)
Lemma plot_each_spec dir names plots0 plots out :
  plot_each tz dir names plots0 = (plots, out) ->
  (Forall (fun n => str_endswith ".json" n = true
                    /\ forall rec, dir !! n = Some rec ->
                         exists fig, plot_repo tz rec = Ok fig) names
   -> out = PlotDone)
  /\ (out = PlotDone ->
      Forall (fun n => str_endswith ".json" n = true
                       /\ forall rec, dir !! n = Some rec ->
                            exists fig, plot_repo tz rec = Ok fig) names
      /\ forall n rec, n ∈ names -> dir !! n = Some rec ->
           is_Some (plots !! (str_drop_last 5 n ++ ".png")%string))
  /\ (out = PlotNameAssertion ->
      Exists (fun n => str_endswith ".json" n = false) names)
  /\ (forall g, is_Some (plots0 !! g) -> is_Some (plots !! g))
  /\ (forall g fig, plots !! g = Some fig ->
        plots0 !! g = Some fig
        \/ exists n rec, n ∈ names /\ dir !! n = Some rec
             /\ str_endswith ".json" n = true
             /\ g = (str_drop_last 5 n ++ ".png")%string
             /\ plot_repo tz rec = Ok fig).
Proof.
  revert plots0. induction names as [|n names IH]; intros plots0 H.
  { injection H as <- <-. split_and!; try done.
    - intros _. split; [constructor|]. by intros n rec Hn%elem_of_nil.
    - by left. }
  cbn [plot_each] in H.
  destruct (str_endswith ".json" n) eqn:Hend.
  2:{ injection H as <- <-. split_and!; try done.
      - intros Hall. apply Forall_cons in Hall as [[Hn _] _]. congruence.
      - intros _. by left.
      - by left. }
  destruct (dir !! n) as [rec|] eqn:Hrec.
  2:{ destruct (IH _ H) as (I1 & I2 & I3 & I4 & I5). split_and!.
      - intros Hall. apply Forall_cons in Hall as [_ Hall]. by apply I1.
      - intros Ho. destruct (I2 Ho) as [Hall Hin]. split.
        + apply Forall_cons. split; [|done]. split; [done|].
          intros rec Hr. congruence.
        + intros n' rec [->|Hn']%elem_of_cons Hr; [congruence|].
          by eapply Hin.
      - intros Ho. right. by apply I3.
      - done.
      - intros g fig Hg.
        destruct (I5 g fig Hg) as [Hold|(n' & rec & Hn' & Hr)]; [by left|].
        right. exists n', rec. split; [by right|done]. }
  destruct (plot_repo tz rec) as [fig0|e] eqn:Hfig.
  2:{ injection H as <- <-. split_and!; try done.
      - intros Hall. apply Forall_cons in Hall as [[_ Hn] _].
        destruct (Hn rec Hrec) as [fig Hf]. congruence.
      - by left. }
  destruct (IH _ H) as (I1 & I2 & I3 & I4 & I5). split_and!.
  - intros Hall. apply Forall_cons in Hall as [_ Hall]. by apply I1.
  - intros Ho. destruct (I2 Ho) as [Hall Hin]. split.
    + apply Forall_cons. split; [|done]. split; [done|].
      intros rec' Hr. exists fig0. congruence.
    + intros n' rec' [->|Hn']%elem_of_cons Hr; [|by eapply Hin].
      apply I4. rewrite lookup_insert_eq. by eexists.
  - intros Ho. right. by apply I3.
  - intros g Hg. apply I4.
    destruct (decide ((str_drop_last 5 n ++ ".png")%string = g)) as [<-|Hne].
    + rewrite lookup_insert_eq. by eexists.
    + by rewrite lookup_insert_ne.
  - intros g fig Hg.
    destruct (I5 g fig Hg) as [Hold|(n' & rec' & Hn' & Hr)].
    + destruct (decide ((str_drop_last 5 n ++ ".png")%string = g))
        as [<-|Hne].
      * rewrite lookup_insert_eq in Hold. injection Hold as <-.
        right. exists n, rec. split_and!; [by left|done..].
      * rewrite lookup_insert_ne in Hold by done. by left.
    + right. exists n', rec'. split; [by right|done].
Qed.

(** X17.  After a successful run of [process_repos], [plot_repos] under the
    same time zone runs to its end, whatever the plot directory held
    before: it leaves one plot per processed file, named after it with
    [.png] for [.json] and drawn from the record of that file, and no other
    plot. *)
Theorem plot_repos_after_process_repos obj objs proc_dir dir plot_dir :
  process_repos tz (Some (obj :: objs)) proc_dir = (Some dir, Ok tt) ->
  exists plots,
    plot_repos tz dir plot_dir = (plots, PlotDone)
    /\ (forall name,
          match dir !! (replace_slash name ++ ".json")%string with
          | Some rec =>
              exists fig,
                plots !! (replace_slash name ++ ".png")%string = Some fig
                /\ plot_repo tz rec = Ok fig
          | None => plots !! (replace_slash name ++ ".png")%string = None
          end)
    /\ forall g, is_Some (plots !! g) ->
         exists name, g = (replace_slash name ++ ".png")%string
           /\ is_Some (dir !! (replace_slash name ++ ".json")%string).
Proof.
  unfold process_repos. set (l := obj :: objs).
  destruct (process_each _ _ _ _) as [dir' r'] eqn:H. intros [= -> ->].
  unfold plot_repos.
  destruct (plot_each tz dir (sorted_keys dir) ∅) as [plots out] eqn:Hp.
  destruct (plot_each_spec _ _ _ _ _ Hp) as (I1 & I2 & _ & _ & I5).
  assert (Hfile : forall f rec, dir !! f = Some rec ->
            exists r, f = (replace_slash r ++ ".json")%string
              /\ exists fig, plot_repo tz rec = Ok fig).
  { intros f rec Hf.
    destruct (process_each_files _ _ _ _ _ _ H f rec Hf)
      as [Hold|(r & _ & -> & Hrec)]; [by rewrite lookup_empty in Hold|].
    exists r. split; [done|].
    destruct (plot_repo_processed _ _ _ Hrec)
      as (zs & ds & _ & _ & Hz & Hd & H1 & H2 & H3 & H4 & H5 & H6 & H7).
    eexists. by apply (plot_repo_aligned rec zs ds). }
  assert (out = PlotDone) as ->.
  { apply I1, Forall_forall. intros n [rec Hn]%elem_of_sorted_keys.
    destruct (Hfile n rec Hn) as (r & -> & Hfig). split.
    - apply str_endswith_json.
    - intros rec' Hr. rewrite Hn in Hr. by injection Hr as <-. }
  exists plots. split; [done|]. split.
  2:{ intros g [fig Hg].
      destruct (I5 _ fig Hg) as [Hold|(n & rec & _ & Hn & _ & -> & _)];
        [by rewrite lookup_empty in Hold|].
      destruct (Hfile n rec Hn) as (r & -> & _).
      exists r. rewrite str_drop_last_json. split; [done|by eexists]. }
  intros name.
  destruct (I2 eq_refl) as [_ Hin].
  assert (Hback : forall fig,
    plots !! (replace_slash name ++ ".png")%string = Some fig ->
    exists rec, dir !! (replace_slash name ++ ".json")%string = Some rec
      /\ plot_repo tz rec = Ok fig).
  { intros fig Hg.
    destruct (I5 _ fig Hg) as [Hold|(n & rec & _ & Hn & _ & Hname & Hfig)];
      [by rewrite lookup_empty in Hold|].
    destruct (Hfile n rec Hn) as (r & -> & _).
    rewrite str_drop_last_json in Hname. apply str_app_inv_tail in Hname.
    exists rec. by rewrite Hname. }
  destruct (dir !! (replace_slash name ++ ".json")%string) as [rec|] eqn:Hrec.
  - destruct (Hin (replace_slash name ++ ".json")%string rec)
      as [fig Hfig]; [|done|].
    { apply elem_of_sorted_keys. by eexists. }
    rewrite str_drop_last_json in Hfig.
    exists fig. split; [done|].
    destruct (Hback fig Hfig) as (rec' & [= <-] & Hf). done.
  - destruct (plots !! (replace_slash name ++ ".png")%string) as [fig|] eqn:Hg;
      [|done].
    by destruct (Hback fig eq_refl) as (rec' & ? & _).
Qed.

(** X18.  [plot_repos] runs to its end exactly when every file name of the
    processed directory ends in [.json] and [plot_repo] succeeds on every
    record; it fails on its assertion only when some file name does not end
    in [.json].  Whatever the outcome, each plot it leaves is drawn from
    the record of a file whose name ends in [.json], and carries that name
    with [.png] for [.json]. *)
Theorem plot_repos_outcome proc_dir plot_dir :
  let '(plots, out) := plot_repos tz proc_dir plot_dir in
  (out = PlotDone <->
   forall n rec, proc_dir !! n = Some rec ->
     str_endswith ".json" n = true
     /\ exists fig, plot_repo tz rec = Ok fig)
  /\ (out = PlotNameAssertion ->
      exists n, is_Some (proc_dir !! n) /\ str_endswith ".json" n = false)
  /\ (forall g fig, plots !! g = Some fig ->
        exists n rec, proc_dir !! n = Some rec
          /\ str_endswith ".json" n = true
          /\ g = (str_drop_last 5 n ++ ".png")%string
          /\ plot_repo tz rec = Ok fig).
Proof.
  unfold plot_repos.
  destruct (plot_each tz proc_dir (sorted_keys proc_dir) ∅)
    as [plots out] eqn:Hp.
  destruct (plot_each_spec _ _ _ _ _ Hp) as (I1 & I2 & I3 & _ & I5).
  split_and!.
  - split.
    + intros Ho n rec Hn. destruct (I2 Ho) as [Hall _].
      rewrite Forall_forall in Hall.
      destruct (Hall n) as [He Hf]; [apply elem_of_sorted_keys; by eexists|].
      split; [done|]. by apply Hf.
    + intros Hall. apply I1, Forall_forall.
      intros n [rec Hn]%elem_of_sorted_keys.
      destruct (Hall n rec Hn) as [He Hf]. split; [done|].
      intros rec' Hr. rewrite Hn in Hr. by injection Hr as <-.
  - intros Ho. apply I3, Exists_exists in Ho as (n & Hn & He).
    exists n. split; [by apply elem_of_sorted_keys|done].
  - intros g fig Hg.
    destruct (I5 g fig Hg) as [Hold|(n & rec & _ & Hr)];
      [by rewrite lookup_empty in Hold|].
    by exists n, rec.
Qed.

End PlotFacts.

Lemma plot_repo_of_processed_witness :
  exists rec,
    process_repo_obj 0 "acme/widget" [crawl1; crawl2] = Ok rec
    /\ exists zs ds,
         strftime <$> zs = daily_dates (proc_daily rec)
         /\ mapM (fromtimestamp 0) (time <$> [crawl1; crawl2]) = Ok ds
         /\ plot_repo 0 rec
            = Ok {| fig_title := "acme/widget traffic";
                    fig_curves :=
                      [ Curve "views" "#48f" ":" zs
                          (daily_views (proc_daily rec));
                        Curve "viewers" "#48f" "-" zs
                          (daily_viewers (proc_daily rec));
                        Curve "clones" "#0b0" ":" zs
                          (daily_clones (proc_daily rec));
                        Curve "cloners" "#0b0" "-" zs
                          (daily_cloners (proc_daily rec));
                        Curve "stars" "#fc0" "-" ds
                          (stars <$> [crawl1; crawl2]);
                        Curve "forks" "#f80" "-" ds
                          (forks <$> [crawl1; crawl2]);
                        Curve "watchers" "#f00" "-" ds
                          (watchers <$> [crawl1; crawl2]) ] |}.
Proof.
  eexists. split; [vm_compute; reflexivity|].
  apply (plot_repo_of_processed 0 "acme/widget" [crawl1; crawl2]).
  vm_compute. reflexivity.
Defined.

Lemma plot_repos_after_process_repos_witness :
  exists dir,
    process_repos 0 (Some [crawl1; crawl2; crawl4]) None = (Some dir, Ok tt)
    /\ exists plots,
         plot_repos 0 dir None = (plots, PlotDone)
         /\ (forall name,
               match dir !! (replace_slash name ++ ".json")%string with
               | Some rec =>
                   exists fig,
                     plots !! (replace_slash name ++ ".png")%string = Some fig
                     /\ plot_repo 0 rec = Ok fig
               | None => plots !! (replace_slash name ++ ".png")%string = None
               end)
         /\ forall g, is_Some (plots !! g) ->
              exists name, g = (replace_slash name ++ ".png")%string
                /\ is_Some (dir !! (replace_slash name ++ ".json")%string).
Proof.
  eexists. split; [vm_compute; reflexivity|].
  apply (plot_repos_after_process_repos 0 crawl1 [crawl2; crawl4] None).
  vm_compute. reflexivity.
Defined.
